(** * A shallow embedding of wabt's [BinaryReaderLogging]

    [src/binary-reader-logging.cc] implements a decorator over the
    [BinaryReaderDelegate] interface: every callback writes one trace line
    to a [Stream] and then forwards the call to the wrapped delegate
    [reader_].  This development embeds the callbacks as functions of a
    small monad (decorator state, effects on the stream and on the wrapped
    delegate, assertion failure) and proves the properties the
    specification states about them. *)

From Stdlib Require Import ZArith List String Ascii Bool Lia.
From Equations Require Import Equations.
Import ListNotations.

Open Scope string_scope.
Open Scope list_scope.
Open Scope Z_scope.

(** ** Characters and text *)

(** The two characters that cannot be written inside a string literal. *)
Definition nl : string := String (ascii_of_nat 10) EmptyString.
Definition dq : string := String (ascii_of_nat 34) EmptyString.
Definition space : ascii := ascii_of_nat 32.
Definition NUL : ascii := ascii_of_nat 0.

Fixpoint repeat_char (c : ascii) (n : nat) : string :=
  match n with
  | O => EmptyString
  | S k => String c (repeat_char c k)
  end.

(** First [n] characters of [s] (all of [s] when it is shorter). *)
Fixpoint take (n : nat) (s : string) : string :=
  match n, s with
  | S k, String c r => String c (take k r)
  | _, _ => EmptyString
  end.

(** Number of newline characters in a text. *)
Fixpoint count_nl (s : string) : nat :=
  match s with
  | EmptyString => O
  | String c r => ((if Ascii.eqb c (ascii_of_nat 10) then 1 else 0) + count_nl r)%nat
  end.

(** ** printf conversions

    The conversions below are the ones the format strings of the source
    use.  An argument is a [Z]; each conversion first reads it at the width
    and signedness of the C type the conversion is applied to. *)

Definition digit_char (d : Z) : ascii :=
  if d <? 10 then ascii_of_nat (48 + Z.to_nat d)
  else ascii_of_nat (87 + Z.to_nat d).

(** Digits of [n] in radix [base], most significant first, in front of
    [acc]; at least one digit and at most [fuel]. *)
Fixpoint radix_digits (base : Z) (fuel : nat) (n : Z) (acc : string) : string :=
  match fuel with
  | O => acc
  | S f =>
      let acc' := String (digit_char (n mod base)) acc in
      if n / base =? 0 then acc' else radix_digits base f (n / base) acc'
  end.

Definition wrap (bits : Z) (n : Z) : Z := n mod 2 ^ bits.

Definition to_signed (bits : Z) (n : Z) : Z :=
  let u := wrap bits n in
  if u <? 2 ^ (bits - 1) then u else u - 2 ^ bits.

(** [%u] on a 32-bit argument ([PRIindex] and [PRIaddress] are [u]). *)
Definition fmt_u (n : Z) : string := radix_digits 10 10 (wrap 32 n) "".
(** [%" PRIu64 "]. *)
Definition fmt_u64 (n : Z) : string := radix_digits 10 20 (wrap 64 n) "".

Definition fmt_signed (bits : Z) (fuel : nat) (n : Z) : string :=
  let s := to_signed bits n in
  if s <? 0 then String "-" (radix_digits 10 fuel (- s) "")
  else radix_digits 10 fuel s "".

(** [%d] on a 32-bit argument. *)
Definition fmt_d (n : Z) : string := fmt_signed 32 10 n.
(** [%" PRIzd "] on an [Offset] ([size_t]). *)
Definition fmt_zd (n : Z) : string := fmt_signed 64 20 n.

(** [%x] on a 32-bit argument: lower-case, no padding. *)
Definition fmt_x (n : Z) : string := radix_digits 16 8 (wrap 32 n) "".
(** [%" PRIx64 "]. *)
Definition fmt_x64 (n : Z) : string := radix_digits 16 16 (wrap 64 n) "".

(** [%08x]: padded with zeros on the left to at least eight characters. *)
Definition fmt_08x (n : Z) : string :=
  let ds := fmt_x n in
  repeat_char "0" (8 - String.length ds) ++ ds.

(** [b ? "true" : "false"]. *)
Definition fmt_bool (b : bool) : string := if b then "true" else "false".

(** ** Reading hexadecimal back *)

Definition hex_val (c : ascii) : option Z :=
  let n := Z.of_nat (nat_of_ascii c) in
  if (48 <=? n) && (n <=? 57) then Some (n - 48)
  else if (97 <=? n) && (n <=? 102) then Some (n - 87)
  else if (65 <=? n) && (n <=? 70) then Some (n - 55)
  else None.

Fixpoint hex_value (acc : Z) (s : string) : option Z :=
  match s with
  | EmptyString => Some acc
  | String c r =>
      match hex_val c with
      | Some d => hex_value (16 * acc + d) r
      | None => None
      end
  end.

(** A hexadecimal literal: [0x] followed by one or more hex digits. *)
Definition parse_hex (s : string) : option Z :=
  match s with
  | String "0" (String "x" (String c r)) => hex_value 0 (String c r)
  | _ => None
  end.

(** ** Types of the delegate interface

    [Index] and [Address] are 32-bit unsigned, [Offset] is [size_t]; the
    enumerations ([Type], [BinarySection], [ExternalKind], [RelocType],
    [SymbolType], [ComdatType]) and [Opcode] are carried as their integer
    value.  Their declarations, like the [PRI...] format macros, are in
    headers outside [binary-reader-logging.cc]. *)

Definition Index := Z.
Definition Address := Z.
Definition Offset := Z.
Definition Type_ := Z.
Definition Opcode := Z.
Definition BinarySection := Z.
Definition ExternalKind := Z.
Definition RelocType := Z.
Definition SymbolType := Z.
Definition ComdatType := Z.
(** [const State*]: the address of the decoder's state record. *)
Definition StatePtr := Z.
(** [const Error&]: the diagnostic's message. *)
Definition Error := string.

Inductive Result : Set := ResultOk | ResultError.

Record Limits : Set := { initial : Z; max : Z; has_max : bool }.

(** [v128]: the array [uint32_t v[4]]. *)
Record v128 : Set := { v_0 : Z; v_1 : Z; v_2 : Z; v_3 : Z }.

(** The methods defined with [DEFINE_BEGIN], in the order of the source. *)
Inductive BeginName : Set :=
  | BeginTypeSection | BeginImportSection | BeginFunctionSection
  | BeginTableSection | BeginMemorySection | BeginGlobalSection
  | BeginExportSection | BeginStartSection | BeginCodeSection
  | BeginElemSection | BeginDataSection | BeginDataCountSection
  | BeginNamesSection | BeginRelocSection | BeginDylinkSection
  | BeginLinkingSection | BeginEventSection.

(** The methods defined with [DEFINE_END], in the order of the source. *)
Inductive EndName : Set :=
  | EndModule | EndCustomSection | EndTypeSection | EndImportSection
  | EndFunctionSection | EndTableSection | EndMemorySection
  | EndGlobalSection | EndExportSection | EndStartSection | EndCodeSection
  | EndElemSection | EndDataSection | EndDataCountSection
  | EndNamesSection | EndRelocSection | EndDylinkSection
  | EndLinkingSection | EndEventSection.

(** The methods defined with [DEFINE_INDEX], in the order of the source. *)
Inductive IndexName : Set :=
  | OnTypeCount | OnImportCount | OnFunctionCount | OnTableCount
  | OnMemoryCount | OnGlobalCount | BeginGlobalInitExpr
  | EndGlobalInitExpr | EndGlobal | OnExportCount | OnStartFunction
  | OnFunctionBodyCount | EndFunctionBody | OnLocalDeclCount
  | OnDataDropExpr | OnMemoryInitExpr | OnElemDropExpr | OnTableInitExpr
  | OnTableSetExpr | OnTableGetExpr | OnTableGrowExpr | OnTableSizeExpr
  | OnElemSegmentCount | BeginElemSegmentInitExpr | EndElemSegmentInitExpr
  | OnElemSegmentElemExpr_RefNull | EndElemSegment | OnDataSegmentCount
  | BeginDataSegmentInitExpr | EndDataSegmentInitExpr | EndDataSegment
  | OnDataCount | OnFunctionNamesCount | OnLocalNameFunctionCount
  | OnDylinkNeededCount | OnSymbolCount | OnSegmentInfoCount
  | OnInitFunctionCount | OnComdatCount | OnEventCount.

(** The methods defined with [DEFINE_INDEX_DESC], in the order of the source. *)
Inductive IndexDescName : Set :=
  | OnCallExpr | OnGlobalGetExpr | OnGlobalSetExpr | OnLocalGetExpr
  | OnLocalSetExpr | OnLocalTeeExpr | OnReturnCallExpr | OnThrowExpr.

(** The methods defined with [DEFINE_INDEX_INDEX], in the order of the source. *)
Inductive IndexIndexName : Set :=
  | OnFunction | OnBrOnExnExpr | OnCallIndirectExpr
  | OnReturnCallIndirectExpr | OnElemSegmentElemExprCount
  | OnElemSegmentElemExpr_RefFunc | OnLocalNameLocalCount
  | OnInitExprGlobalGetExpr | OnEventType.

(** The methods defined with [DEFINE_INDEX_INDEX_BOOL], in the order of the source. *)
Inductive IndexIndexBoolName : Set :=
  | BeginDataSegment.

(** The methods defined with [DEFINE_OPCODE], in the order of the source. *)
Inductive OpcodeName : Set :=
  | OnBinaryExpr | OnCompareExpr | OnConvertExpr | OnUnaryExpr
  | OnTernaryExpr.

(** The methods defined with [DEFINE_LOAD_STORE_OPCODE], in the order of the source. *)
Inductive LoadStoreName : Set :=
  | OnAtomicLoadExpr | OnAtomicRmwExpr | OnAtomicRmwCmpxchgExpr
  | OnAtomicStoreExpr | OnAtomicWaitExpr | OnAtomicNotifyExpr | OnLoadExpr
  | OnStoreExpr.

(** The methods defined with [DEFINE0], in the order of the source. *)
Inductive Name0 : Set :=
  | OnCatchExpr | OnDropExpr | OnElseExpr | OnEndExpr | OnMemoryCopyExpr
  | OnMemoryFillExpr | OnMemoryGrowExpr | OnMemorySizeExpr
  | OnTableCopyExpr | OnRefNullExpr | OnRefIsNullExpr | OnNopExpr
  | OnRethrowExpr | OnReturnExpr | OnSelectExpr | OnUnreachableExpr.

Definition BeginName_str (n : BeginName) : string :=
  match n with
  | BeginTypeSection => "BeginTypeSection"
  | BeginImportSection => "BeginImportSection"
  | BeginFunctionSection => "BeginFunctionSection"
  | BeginTableSection => "BeginTableSection"
  | BeginMemorySection => "BeginMemorySection"
  | BeginGlobalSection => "BeginGlobalSection"
  | BeginExportSection => "BeginExportSection"
  | BeginStartSection => "BeginStartSection"
  | BeginCodeSection => "BeginCodeSection"
  | BeginElemSection => "BeginElemSection"
  | BeginDataSection => "BeginDataSection"
  | BeginDataCountSection => "BeginDataCountSection"
  | BeginNamesSection => "BeginNamesSection"
  | BeginRelocSection => "BeginRelocSection"
  | BeginDylinkSection => "BeginDylinkSection"
  | BeginLinkingSection => "BeginLinkingSection"
  | BeginEventSection => "BeginEventSection"
  end.

Definition EndName_str (n : EndName) : string :=
  match n with
  | EndModule => "EndModule"
  | EndCustomSection => "EndCustomSection"
  | EndTypeSection => "EndTypeSection"
  | EndImportSection => "EndImportSection"
  | EndFunctionSection => "EndFunctionSection"
  | EndTableSection => "EndTableSection"
  | EndMemorySection => "EndMemorySection"
  | EndGlobalSection => "EndGlobalSection"
  | EndExportSection => "EndExportSection"
  | EndStartSection => "EndStartSection"
  | EndCodeSection => "EndCodeSection"
  | EndElemSection => "EndElemSection"
  | EndDataSection => "EndDataSection"
  | EndDataCountSection => "EndDataCountSection"
  | EndNamesSection => "EndNamesSection"
  | EndRelocSection => "EndRelocSection"
  | EndDylinkSection => "EndDylinkSection"
  | EndLinkingSection => "EndLinkingSection"
  | EndEventSection => "EndEventSection"
  end.

Definition IndexName_str (n : IndexName) : string :=
  match n with
  | OnTypeCount => "OnTypeCount"
  | OnImportCount => "OnImportCount"
  | OnFunctionCount => "OnFunctionCount"
  | OnTableCount => "OnTableCount"
  | OnMemoryCount => "OnMemoryCount"
  | OnGlobalCount => "OnGlobalCount"
  | BeginGlobalInitExpr => "BeginGlobalInitExpr"
  | EndGlobalInitExpr => "EndGlobalInitExpr"
  | EndGlobal => "EndGlobal"
  | OnExportCount => "OnExportCount"
  | OnStartFunction => "OnStartFunction"
  | OnFunctionBodyCount => "OnFunctionBodyCount"
  | EndFunctionBody => "EndFunctionBody"
  | OnLocalDeclCount => "OnLocalDeclCount"
  | OnDataDropExpr => "OnDataDropExpr"
  | OnMemoryInitExpr => "OnMemoryInitExpr"
  | OnElemDropExpr => "OnElemDropExpr"
  | OnTableInitExpr => "OnTableInitExpr"
  | OnTableSetExpr => "OnTableSetExpr"
  | OnTableGetExpr => "OnTableGetExpr"
  | OnTableGrowExpr => "OnTableGrowExpr"
  | OnTableSizeExpr => "OnTableSizeExpr"
  | OnElemSegmentCount => "OnElemSegmentCount"
  | BeginElemSegmentInitExpr => "BeginElemSegmentInitExpr"
  | EndElemSegmentInitExpr => "EndElemSegmentInitExpr"
  | OnElemSegmentElemExpr_RefNull => "OnElemSegmentElemExpr_RefNull"
  | EndElemSegment => "EndElemSegment"
  | OnDataSegmentCount => "OnDataSegmentCount"
  | BeginDataSegmentInitExpr => "BeginDataSegmentInitExpr"
  | EndDataSegmentInitExpr => "EndDataSegmentInitExpr"
  | EndDataSegment => "EndDataSegment"
  | OnDataCount => "OnDataCount"
  | OnFunctionNamesCount => "OnFunctionNamesCount"
  | OnLocalNameFunctionCount => "OnLocalNameFunctionCount"
  | OnDylinkNeededCount => "OnDylinkNeededCount"
  | OnSymbolCount => "OnSymbolCount"
  | OnSegmentInfoCount => "OnSegmentInfoCount"
  | OnInitFunctionCount => "OnInitFunctionCount"
  | OnComdatCount => "OnComdatCount"
  | OnEventCount => "OnEventCount"
  end.

Definition IndexDescName_str (n : IndexDescName) : string :=
  match n with
  | OnCallExpr => "OnCallExpr"
  | OnGlobalGetExpr => "OnGlobalGetExpr"
  | OnGlobalSetExpr => "OnGlobalSetExpr"
  | OnLocalGetExpr => "OnLocalGetExpr"
  | OnLocalSetExpr => "OnLocalSetExpr"
  | OnLocalTeeExpr => "OnLocalTeeExpr"
  | OnReturnCallExpr => "OnReturnCallExpr"
  | OnThrowExpr => "OnThrowExpr"
  end.

Definition IndexIndexName_str (n : IndexIndexName) : string :=
  match n with
  | OnFunction => "OnFunction"
  | OnBrOnExnExpr => "OnBrOnExnExpr"
  | OnCallIndirectExpr => "OnCallIndirectExpr"
  | OnReturnCallIndirectExpr => "OnReturnCallIndirectExpr"
  | OnElemSegmentElemExprCount => "OnElemSegmentElemExprCount"
  | OnElemSegmentElemExpr_RefFunc => "OnElemSegmentElemExpr_RefFunc"
  | OnLocalNameLocalCount => "OnLocalNameLocalCount"
  | OnInitExprGlobalGetExpr => "OnInitExprGlobalGetExpr"
  | OnEventType => "OnEventType"
  end.

Definition IndexIndexBoolName_str (n : IndexIndexBoolName) : string :=
  match n with
  | BeginDataSegment => "BeginDataSegment"
  end.

Definition OpcodeName_str (n : OpcodeName) : string :=
  match n with
  | OnBinaryExpr => "OnBinaryExpr"
  | OnCompareExpr => "OnCompareExpr"
  | OnConvertExpr => "OnConvertExpr"
  | OnUnaryExpr => "OnUnaryExpr"
  | OnTernaryExpr => "OnTernaryExpr"
  end.

Definition LoadStoreName_str (n : LoadStoreName) : string :=
  match n with
  | OnAtomicLoadExpr => "OnAtomicLoadExpr"
  | OnAtomicRmwExpr => "OnAtomicRmwExpr"
  | OnAtomicRmwCmpxchgExpr => "OnAtomicRmwCmpxchgExpr"
  | OnAtomicStoreExpr => "OnAtomicStoreExpr"
  | OnAtomicWaitExpr => "OnAtomicWaitExpr"
  | OnAtomicNotifyExpr => "OnAtomicNotifyExpr"
  | OnLoadExpr => "OnLoadExpr"
  | OnStoreExpr => "OnStoreExpr"
  end.

Definition Name0_str (n : Name0) : string :=
  match n with
  | OnCatchExpr => "OnCatchExpr"
  | OnDropExpr => "OnDropExpr"
  | OnElseExpr => "OnElseExpr"
  | OnEndExpr => "OnEndExpr"
  | OnMemoryCopyExpr => "OnMemoryCopyExpr"
  | OnMemoryFillExpr => "OnMemoryFillExpr"
  | OnMemoryGrowExpr => "OnMemoryGrowExpr"
  | OnMemorySizeExpr => "OnMemorySizeExpr"
  | OnTableCopyExpr => "OnTableCopyExpr"
  | OnRefNullExpr => "OnRefNullExpr"
  | OnRefIsNullExpr => "OnRefIsNullExpr"
  | OnNopExpr => "OnNopExpr"
  | OnRethrowExpr => "OnRethrowExpr"
  | OnReturnExpr => "OnReturnExpr"
  | OnSelectExpr => "OnSelectExpr"
  | OnUnreachableExpr => "OnUnreachableExpr"
  end.

Definition IndexDescName_desc (n : IndexDescName) : string :=
  match n with
  | OnCallExpr => "func_index"
  | OnGlobalGetExpr => "index"
  | OnGlobalSetExpr => "index"
  | OnLocalGetExpr => "index"
  | OnLocalSetExpr => "index"
  | OnLocalTeeExpr => "index"
  | OnReturnCallExpr => "func_index"
  | OnThrowExpr => "event_index"
  end.

Definition IndexIndexName_desc (n : IndexIndexName) : string * string :=
  match n with
  | OnFunction => ("index", "sig_index")
  | OnBrOnExnExpr => ("depth", "event_index")
  | OnCallIndirectExpr => ("sig_index", "table_index")
  | OnReturnCallIndirectExpr => ("sig_index", "table_index")
  | OnElemSegmentElemExprCount => ("index", "count")
  | OnElemSegmentElemExpr_RefFunc => ("index", "func_index")
  | OnLocalNameLocalCount => ("index", "count")
  | OnInitExprGlobalGetExpr => ("index", "global_index")
  | OnEventType => ("index", "sig_index")
  end.

Definition IndexIndexBoolName_desc (n : IndexIndexBoolName) : string * string * string :=
  match n with
  | BeginDataSegment => ("index", "memory_index", "passive")
  end.
(** ** Calls of the [BinaryReaderDelegate] interface

    One constructor per method the file defines by hand, one per macro for
    the methods the macros define.  An array passed as a count and a
    pointer is a list (the count is its length). *)

Inductive Call : Set :=
  | OnError (error : Error)
  | OnSetState (s : StatePtr)
  | BeginModule (version : Z)
  | BeginSection (section_index : Index) (section_type : BinarySection)
      (size : Offset)
  | BeginCustomSection (size : Offset) (section_name : string)
  | OnType (index : Index) (param_types : list Type_)
      (result_types : list Type_)
  | OnImport (index : Index) (module_name field_name : string)
  | OnImportFunc (import_index : Index) (module_name field_name : string)
      (func_index sig_index : Index)
  | OnImportTable (import_index : Index) (module_name field_name : string)
      (table_index : Index) (elem_type : Type_) (elem_limits : Limits)
  | OnImportMemory (import_index : Index) (module_name field_name : string)
      (memory_index : Index) (page_limits : Limits)
  | OnImportGlobal (import_index : Index) (module_name field_name : string)
      (global_index : Index) (type : Type_) (mutable_ : bool)
  | OnImportEvent (import_index : Index) (module_name field_name : string)
      (event_index sig_index : Index)
  | OnTable (index : Index) (elem_type : Type_) (elem_limits : Limits)
  | OnMemory (index : Index) (page_limits : Limits)
  | BeginGlobal (index : Index) (type : Type_) (mutable_ : bool)
  | OnExport (index : Index) (kind : ExternalKind) (item_index : Index)
      (name : string)
  | BeginFunctionBody (value : Index) (size : Offset)
  | OnLocalDecl (decl_index count : Index) (type : Type_)
  | OnBlockExpr (sig_type : Type_)
  | OnBrExpr (depth : Index)
  | OnBrIfExpr (depth : Index)
  | OnBrTableExpr (target_depths : list Index) (default_target_depth : Index)
  | OnF32ConstExpr (value_bits : Z)
  | OnF64ConstExpr (value_bits : Z)
  | OnV128ConstExpr (value_bits : v128)
  | OnI32ConstExpr (value : Z)
  | OnI64ConstExpr (value : Z)
  | OnIfExpr (sig_type : Type_)
  | OnLoopExpr (sig_type : Type_)
  | OnTryExpr (sig_type : Type_)
  | OnSimdLaneOpExpr (opcode : Opcode) (value : Z)
  | OnSimdShuffleOpExpr (opcode : Opcode) (value : v128)
  | BeginElemSegment (index table_index : Index) (passive : bool)
      (elem_type : Type_)
  | OnDataSegmentData (index : Index) (data : string) (size : Address)
  | OnModuleNameSubsection (index : Index) (name_type : Z)
      (subsection_size : Offset)
  | OnModuleName (name : string)
  | OnFunctionNameSubsection (index : Index) (name_type : Z)
      (subsection_size : Offset)
  | OnFunctionName (index : Index) (name : string)
  | OnLocalNameSubsection (index : Index) (name_type : Z)
      (subsection_size : Offset)
  | OnLocalName (func_index local_index : Index) (name : string)
  | OnInitExprF32ConstExpr (index : Index) (value_bits : Z)
  | OnInitExprF64ConstExpr (index : Index) (value_bits : Z)
  | OnInitExprV128ConstExpr (index : Index) (value_bits : v128)
  | OnInitExprI32ConstExpr (index : Index) (value : Z)
  | OnInitExprI64ConstExpr (index : Index) (value : Z)
  | OnDylinkInfo (mem_size mem_align table_size table_align : Z)
  | OnDylinkNeeded (so_name : string)
  | OnRelocCount (count section_index : Index)
  | OnReloc (type : RelocType) (offset : Offset) (index : Index) (addend : Z)
  | OnSymbol (symbol_index : Index) (type : SymbolType) (flags : Z)
  | OnDataSymbol (index : Index) (flags : Z) (name : string)
      (segment : Index) (offset size : Z)
  | OnFunctionSymbol (index : Index) (flags : Z) (name : string)
      (func_index : Index)
  | OnGlobalSymbol (index : Index) (flags : Z) (name : string)
      (global_index : Index)
  | OnSectionSymbol (index : Index) (flags : Z) (section_index : Index)
  | OnEventSymbol (index : Index) (flags : Z) (name : string)
      (event_index : Index)
  | OnSegmentInfo (index : Index) (name : string) (alignment flags : Z)
  | OnInitFunction (priority : Z) (func_index : Index)
  | OnComdatBegin (name : string) (flags : Z) (count : Index)
  | OnComdatEntry (kind : ComdatType) (index : Index)
  | DEFINE_BEGIN (name : BeginName) (size : Offset)
  | DEFINE_END (name : EndName)
  | DEFINE_INDEX (name : IndexName) (value : Index)
  | DEFINE_INDEX_DESC (name : IndexDescName) (value : Index)
  | DEFINE_INDEX_INDEX (name : IndexIndexName) (value0 value1 : Index)
  | DEFINE_INDEX_INDEX_BOOL (name : IndexIndexBoolName)
      (value0 value1 : Index) (value2 : bool)
  | DEFINE_OPCODE (name : OpcodeName) (opcode : Opcode)
  | DEFINE_LOAD_STORE_OPCODE (name : LoadStoreName) (opcode : Opcode)
      (alignment_log2 : Z) (offset : Address)
  | DEFINE0 (name : Name0)
  | OnOpcode (opcode : Opcode)
  | OnOpcodeBare
  | OnOpcodeIndex (value : Index)
  | OnOpcodeIndexIndex (value value2 : Index)
  | OnOpcodeUint32 (value : Z)
  | OnOpcodeUint32Uint32 (value value2 : Z)
  | OnOpcodeUint64 (value : Z)
  | OnOpcodeF32 (value : Z)
  | OnOpcodeF64 (value : Z)
  | OnOpcodeV128 (value : v128)
  | OnOpcodeBlockSig (sig_type : Type_)
  | OnEndFunc.

(** What a call returns: [Result] for all methods but [OnError] ([bool])
    and [OnSetState] ([void]). *)
Inductive Ret : Set :=
  | RResult (r : Result)
  | RBool (b : bool)
  | RVoid.

(** ** Effects

    The decorator acts on two objects it does not own: the stream
    [stream_] and the wrapped delegate [reader_].  An effect records one
    call on either, in the order the calls are made. *)

Inductive Effect : Set :=
  | WriteData (src : string) (size : Z)  (* stream_->WriteData(src, size) *)
  | Writef (text : string)               (* stream_->Writef(format, ...) *)
  | Forward (c : Call).                  (* reader_->name(arguments) *)

(** Modelled from the spec: the class declaration
    (binary-reader-logging.h) is not part of the source.  The decorator's
    own fields: [indent_] is the spec's integer depth counter, and [state]
    is the field the base class's [OnSetState] stores into. *)
Record BinaryReaderLogging : Set := { indent_ : Z; state : option StatePtr }.

(** [BinaryReaderLogging(stream, forward)]: [indent_(0)]. *)
Definition new_BinaryReaderLogging : BinaryReaderLogging :=
  {| indent_ := 0; state := None |}.

Definition INDENT_SIZE : Z := 2.

(** [s_indent]: 142 spaces; the array has one more byte, the terminating
    NUL, which [s_indent_len = sizeof(s_indent) - 1] leaves out. *)
Definition s_indent : string := repeat_char space 142 ++ String NUL "".
Definition s_indent_len : Z := Z.of_nat (String.length s_indent) - 1.

(** [size_t i = indent_]: conversion of [int] to [size_t]. *)
Definition to_size_t (n : Z) : Z := wrap 64 n.

(** [%.*s] with [WABT_PRINTF_STRING_VIEW_ARG]: the characters of the
    view, up to a NUL if it holds one. *)
Fixpoint fmt_sv (s : string) : string :=
  match s with
  | EmptyString => EmptyString
  | String c r => if Ascii.eqb c NUL then EmptyString else String c (fmt_sv r)
  end.

(** The text [SPrintLimits] formats. *)
Definition Limits_text (limits : Limits) : string :=
  if has_max limits
  then "initial: " ++ fmt_u64 (initial limits) ++ ", max: " ++ fmt_u64 (max limits)
  else "initial: " ++ fmt_u64 (initial limits).

(** ** The decorator *)

Section Logging.

(** Name tables and predicates of other translation units. *)
Variable IsTypeIndex : Type_ -> bool.
Variable GetTypeName : Type_ -> string.
Variable GetKindName : ExternalKind -> string.
Variable GetRelocTypeName : RelocType -> string.
Variable GetSymbolTypeName : SymbolType -> string.
Variable Opcode_GetName : Opcode -> string.
Variable Opcode_GetCode : Opcode -> Z.

(** [%g] of the [float] (resp. [double]) whose bits are the argument. *)
Variable fmt_g32 : Z -> string.
Variable fmt_g64 : Z -> string.

(** The wrapped delegate: its state, and what each call returns and does
    to that state. *)
Variable Reader : Type.
Variable reader_ : Call -> Reader -> Ret * Reader.

Record World : Type := { self : BinaryReaderLogging; reader : Reader }.

(** A method either returns, or stops at a failed [assert]. *)
Inductive Outcome (A : Type) : Type :=
  | Done (a : A) (w : World)
  | AssertFail.
Arguments Done {A} a w.
Arguments AssertFail {A}.

(** A computation: from a state, the effects performed (in order) and
    the outcome. *)
Definition M (A : Type) : Type := World -> list Effect * Outcome A.

Definition ret {A : Type} (a : A) : M A := fun w => ([], Done a w).

Definition bind {A B : Type} (m : M A) (f : A -> M B) : M B :=
  fun w =>
    match m w with
    | (l1, Done a w1) =>
        match f a w1 with
        | (l2, o) => (l1 ++ l2, o)
        end
    | (l1, AssertFail) => (l1, AssertFail)
    end.

Notation "x <- m ;; k" := (bind m (fun x => k))
  (at level 61, m at next level, right associativity).
Notation "m ;; k" := (bind m (fun _ => k))
  (at level 61, right associativity).

Definition emit (e : Effect) : M unit := fun w => ([e], Done tt w).

Definition assert (b : bool) : M unit :=
  fun w => ([], if b then Done tt w else AssertFail).

Definition get_indent : M Z := fun w => ([], Done (indent_ (self w)) w).

Definition set_indent (n : Z) : M unit :=
  fun w => ([], Done tt {| self := {| indent_ := n; state := state (self w) |};
                          reader := reader w |}).

Definition set_state (s : StatePtr) : M unit :=
  fun w => ([], Done tt {| self := {| indent_ := indent_ (self w); state := Some s |};
                          reader := reader w |}).

(** [reader_->name(arguments)]. *)
Definition forward (c : Call) : M Ret :=
  fun w => ([Forward c],
            Done (fst (reader_ c (reader w)))
                 {| self := self w; reader := snd (reader_ c (reader w)) |}).

Definition stream_WriteData (src : string) (size : Z) : M unit :=
  emit (WriteData src size).

Definition LOGF_NOINDENT (text : string) : M unit := emit (Writef text).

Definition Indent : M unit :=
  i <- get_indent ;; set_indent (i + INDENT_SIZE).

Definition Dedent : M unit :=
  i <- get_indent ;;
  set_indent (i - INDENT_SIZE) ;;
  i' <- get_indent ;;
  assert (0 <=? i').

(** The [while] loop of [WriteIndent]; returns the final [i]. *)
Equations? WriteIndent_while (i : Z) : M Z by wf (Z.to_nat i) lt :=
  WriteIndent_while i with Z_gt_dec i s_indent_len => {
    | left _ =>
        stream_WriteData s_indent s_indent_len ;;
        WriteIndent_while (i - s_indent_len)
    | right _ => ret i }.
Proof. change s_indent_len with 142 in *. lia. Qed.

Definition WriteIndent : M unit :=
  indent <- get_indent ;;
  i <- WriteIndent_while (to_size_t indent) ;;
  if 0 <? i then stream_WriteData s_indent (to_size_t indent) else ret tt.

Definition LOGF (text : string) : M unit :=
  WriteIndent ;; LOGF_NOINDENT text.

(** [SPrintLimits(dst, size, limits)]; returns the content of [dst]. *)
Definition SPrintLimits (size : Z) (limits : Limits) : M string :=
  let result := Z.of_nat (String.length (Limits_text limits)) in
  assert (result <? size) ;;
  ret (Limits_text limits).

Definition LogType (type : Type_) : M unit :=
  if IsTypeIndex type
  then LOGF_NOINDENT ("funcidx[" ++ fmt_d type ++ "]")
  else LOGF_NOINDENT (GetTypeName type).

(** The [for] loop of [LogTypes]: [types] is what is left of the array. *)
Fixpoint LogTypes_for (types : list Type_) : M unit :=
  match types with
  | [] => ret tt
  | type :: rest =>
      LogType type ;;
      (match rest with [] => ret tt | _ :: _ => LOGF_NOINDENT ", " end) ;;
      LogTypes_for rest
  end.

Definition LogTypes (types : list Type_) : M unit :=
  LOGF_NOINDENT "[" ;;
  LogTypes_for types ;;
  LOGF_NOINDENT "]".

(** The [for] loop of [OnBrTableExpr]. *)
Fixpoint OnBrTableExpr_for (target_depths : list Index) : M unit :=
  match target_depths with
  | [] => ret tt
  | d :: rest =>
      LOGF_NOINDENT (fmt_u d) ;;
      (match rest with [] => ret tt | _ :: _ => LOGF_NOINDENT ", " end) ;;
      OnBrTableExpr_for rest
  end.

(** ** The methods

    [call c] is the body of the method [c] names, applied to [c]'s
    arguments.  Each branch follows its method statement by statement;
    the format string is spelled out with the conversions above. *)

Definition call (c : Call) : M Ret :=
  match c with
  | OnError error =>
      forward (OnError error)
  | OnSetState s =>
      set_state s ;;                    (* BinaryReaderDelegate::OnSetState(s) *)
      forward (OnSetState s)
  | BeginModule version =>
      LOGF ("BeginModule(version: " ++ fmt_u version ++ ")" ++ nl) ;;
      Indent ;;
      forward (BeginModule version)
  | BeginSection section_index section_type size =>
      forward (BeginSection section_index section_type size)
  | BeginCustomSection size section_name =>
      LOGF ("BeginCustomSection('" ++ fmt_sv section_name ++ "', size: "
            ++ fmt_zd size ++ ")" ++ nl) ;;
      Indent ;;
      forward (BeginCustomSection size section_name)
  | OnType index param_types result_types =>
      LOGF ("OnType(index: " ++ fmt_u index ++ ", params: ") ;;
      LogTypes param_types ;;
      LOGF_NOINDENT ", results: " ;;
      LogTypes result_types ;;
      LOGF_NOINDENT (")" ++ nl) ;;
      forward (OnType index param_types result_types)
  | OnImport index module_name field_name =>
      LOGF ("OnImport(index: " ++ fmt_u index ++ ", module: " ++ dq
            ++ fmt_sv module_name ++ dq ++ ", field: " ++ dq
            ++ fmt_sv field_name ++ dq ++ ")" ++ nl) ;;
      forward (OnImport index module_name field_name)
  | OnImportFunc import_index module_name field_name func_index sig_index =>
      LOGF ("OnImportFunc(import_index: " ++ fmt_u import_index
            ++ ", func_index: " ++ fmt_u func_index
            ++ ", sig_index: " ++ fmt_u sig_index ++ ")" ++ nl) ;;
      forward (OnImportFunc import_index module_name field_name func_index
                 sig_index)
  | OnImportTable import_index module_name field_name table_index elem_type
      elem_limits =>
      buf <- SPrintLimits 100 elem_limits ;;
      LOGF ("OnImportTable(import_index: " ++ fmt_u import_index
            ++ ", table_index: " ++ fmt_u table_index
            ++ ", elem_type: " ++ GetTypeName elem_type ++ ", " ++ buf
            ++ ")" ++ nl) ;;
      forward (OnImportTable import_index module_name field_name table_index
                 elem_type elem_limits)
  | OnImportMemory import_index module_name field_name memory_index
      page_limits =>
      buf <- SPrintLimits 100 page_limits ;;
      LOGF ("OnImportMemory(import_index: " ++ fmt_u import_index
            ++ ", memory_index: " ++ fmt_u memory_index ++ ", " ++ buf
            ++ ")" ++ nl) ;;
      forward (OnImportMemory import_index module_name field_name
                 memory_index page_limits)
  | OnImportGlobal import_index module_name field_name global_index type
      mutable_ =>
      LOGF ("OnImportGlobal(import_index: " ++ fmt_u import_index
            ++ ", global_index: " ++ fmt_u global_index
            ++ ", type: " ++ GetTypeName type ++ ", mutable: "
            ++ fmt_bool mutable_ ++ ")" ++ nl) ;;
      forward (OnImportGlobal import_index module_name field_name
                 global_index type mutable_)
  | OnImportEvent import_index module_name field_name event_index sig_index =>
      LOGF ("OnImportEvent(import_index: " ++ fmt_u import_index
            ++ ", event_index: " ++ fmt_u event_index
            ++ ", sig_index: " ++ fmt_u sig_index ++ ")" ++ nl) ;;
      forward (OnImportEvent import_index module_name field_name event_index
                 sig_index)
  | OnTable index elem_type elem_limits =>
      buf <- SPrintLimits 100 elem_limits ;;
      LOGF ("OnTable(index: " ++ fmt_u index ++ ", elem_type: "
            ++ GetTypeName elem_type ++ ", " ++ buf ++ ")" ++ nl) ;;
      forward (OnTable index elem_type elem_limits)
  | OnMemory index page_limits =>
      buf <- SPrintLimits 100 page_limits ;;
      LOGF ("OnMemory(index: " ++ fmt_u index ++ ", " ++ buf ++ ")" ++ nl) ;;
      forward (OnMemory index page_limits)
  | BeginGlobal index type mutable_ =>
      LOGF ("BeginGlobal(index: " ++ fmt_u index ++ ", type: "
            ++ GetTypeName type ++ ", mutable: " ++ fmt_bool mutable_
            ++ ")" ++ nl) ;;
      forward (BeginGlobal index type mutable_)
  | OnExport index kind item_index name =>
      LOGF ("OnExport(index: " ++ fmt_u index ++ ", kind: "
            ++ GetKindName kind ++ ", item_index: " ++ fmt_u item_index
            ++ ", name: " ++ dq ++ fmt_sv name ++ dq ++ ")" ++ nl) ;;
      forward (OnExport index kind item_index name)
  | BeginFunctionBody value size =>
      LOGF ("BeginFunctionBody(" ++ fmt_u value ++ ", size:" ++ fmt_zd size
            ++ ")" ++ nl) ;;
      forward (BeginFunctionBody value size)
  | OnLocalDecl decl_index count type =>
      LOGF ("OnLocalDecl(index: " ++ fmt_u decl_index ++ ", count: "
            ++ fmt_u count ++ ", type: " ++ GetTypeName type ++ ")" ++ nl) ;;
      forward (OnLocalDecl decl_index count type)
  | OnBlockExpr sig_type =>
      LOGF "OnBlockExpr(sig: " ;;
      LogType sig_type ;;
      LOGF_NOINDENT (")" ++ nl) ;;
      forward (OnBlockExpr sig_type)
  | OnBrExpr depth =>
      LOGF ("OnBrExpr(depth: " ++ fmt_u depth ++ ")" ++ nl) ;;
      forward (OnBrExpr depth)
  | OnBrIfExpr depth =>
      LOGF ("OnBrIfExpr(depth: " ++ fmt_u depth ++ ")" ++ nl) ;;
      forward (OnBrIfExpr depth)
  | OnBrTableExpr target_depths default_target_depth =>
      LOGF ("OnBrTableExpr(num_targets: "
            ++ fmt_u (Z.of_nat (List.length target_depths))
            ++ ", depths: [") ;;
      OnBrTableExpr_for target_depths ;;
      LOGF_NOINDENT ("], default: " ++ fmt_u default_target_depth ++ ")"
                     ++ nl) ;;
      forward (OnBrTableExpr target_depths default_target_depth)
  | OnF32ConstExpr value_bits =>
      LOGF ("OnF32ConstExpr(" ++ fmt_g32 value_bits ++ " (0x04"
            ++ fmt_x value_bits ++ "))" ++ nl) ;;
      forward (OnF32ConstExpr value_bits)
  | OnF64ConstExpr value_bits =>
      LOGF ("OnF64ConstExpr(" ++ fmt_g64 value_bits ++ " (0x08"
            ++ fmt_x64 value_bits ++ "))" ++ nl) ;;
      forward (OnF64ConstExpr value_bits)
  | OnV128ConstExpr value_bits =>
      LOGF ("OnV128ConstExpr(0x" ++ fmt_08x (v_0 value_bits)
            ++ " 0x" ++ fmt_08x (v_1 value_bits)
            ++ " 0x" ++ fmt_08x (v_2 value_bits)
            ++ " 0x" ++ fmt_08x (v_3 value_bits) ++ ")" ++ nl) ;;
      forward (OnV128ConstExpr value_bits)
  | OnI32ConstExpr value =>
      LOGF ("OnI32ConstExpr(" ++ fmt_u value ++ " (0x" ++ fmt_x value ++ "))"
            ++ nl) ;;
      forward (OnI32ConstExpr value)
  | OnI64ConstExpr value =>
      LOGF ("OnI64ConstExpr(" ++ fmt_u64 value ++ " (0x" ++ fmt_x64 value
            ++ "))" ++ nl) ;;
      forward (OnI64ConstExpr value)
  | OnIfExpr sig_type =>
      LOGF "OnIfExpr(sig: " ;;
      LogType sig_type ;;
      LOGF_NOINDENT (")" ++ nl) ;;
      forward (OnIfExpr sig_type)
  | OnLoopExpr sig_type =>
      LOGF "OnLoopExpr(sig: " ;;
      LogType sig_type ;;
      LOGF_NOINDENT (")" ++ nl) ;;
      forward (OnLoopExpr sig_type)
  | OnTryExpr sig_type =>
      LOGF "OnTryExpr(sig: " ;;
      LogType sig_type ;;
      LOGF_NOINDENT (")" ++ nl) ;;
      forward (OnTryExpr sig_type)
  | OnSimdLaneOpExpr opcode value =>
      LOGF ("OnSimdLaneOpExpr (lane: " ++ fmt_u64 value ++ ")" ++ nl) ;;
      forward (OnSimdLaneOpExpr opcode value)
  | OnSimdShuffleOpExpr opcode value =>
      LOGF ("OnSimdShuffleOpExpr (lane: 0x" ++ fmt_08x (v_0 value)
            ++ " " ++ fmt_08x (v_1 value)
            ++ " " ++ fmt_08x (v_2 value)
            ++ " " ++ fmt_08x (v_3 value) ++ ")" ++ nl) ;;
      forward (OnSimdShuffleOpExpr opcode value)
  | BeginElemSegment index table_index passive elem_type =>
      LOGF ("BeginElemSegment(index: " ++ fmt_u index ++ ", table_index: "
            ++ fmt_u table_index ++ ", passive: " ++ fmt_bool passive
            ++ ", elem_type: " ++ GetTypeName elem_type ++ ")" ++ nl) ;;
      forward (BeginElemSegment index table_index passive elem_type)
  | OnDataSegmentData index data size =>
      LOGF ("OnDataSegmentData(index:" ++ fmt_u index ++ ", size:"
            ++ fmt_u size ++ ")" ++ nl) ;;
      forward (OnDataSegmentData index data size)
  | OnModuleNameSubsection index name_type subsection_size =>
      LOGF ("OnModuleNameSubsection(index:" ++ fmt_u index ++ ", nametype:"
            ++ fmt_u name_type ++ ", size:" ++ fmt_zd subsection_size ++ ")"
            ++ nl) ;;
      forward (OnModuleNameSubsection index name_type subsection_size)
  | OnModuleName name =>
      LOGF ("OnModuleName(name: " ++ dq ++ fmt_sv name ++ dq ++ ")" ++ nl) ;;
      forward (OnModuleName name)
  | OnFunctionNameSubsection index name_type subsection_size =>
      LOGF ("OnFunctionNameSubsection(index:" ++ fmt_u index ++ ", nametype:"
            ++ fmt_u name_type ++ ", size:" ++ fmt_zd subsection_size ++ ")"
            ++ nl) ;;
      forward (OnFunctionNameSubsection index name_type subsection_size)
  | OnFunctionName index name =>
      LOGF ("OnFunctionName(index: " ++ fmt_u index ++ ", name: " ++ dq
            ++ fmt_sv name ++ dq ++ ")" ++ nl) ;;
      forward (OnFunctionName index name)
  | OnLocalNameSubsection index name_type subsection_size =>
      LOGF ("OnLocalNameSubsection(index:" ++ fmt_u index ++ ", nametype:"
            ++ fmt_u name_type ++ ", size:" ++ fmt_zd subsection_size ++ ")"
            ++ nl) ;;
      forward (OnLocalNameSubsection index name_type subsection_size)
  | OnLocalName func_index local_index name =>
      LOGF ("OnLocalName(func_index: " ++ fmt_u func_index
            ++ ", local_index: " ++ fmt_u local_index ++ ", name: " ++ dq
            ++ fmt_sv name ++ dq ++ ")" ++ nl) ;;
      forward (OnLocalName func_index local_index name)
  | OnInitExprF32ConstExpr index value_bits =>
      LOGF ("OnInitExprF32ConstExpr(index: " ++ fmt_u index ++ ", value: "
            ++ fmt_g32 value_bits ++ " (0x04" ++ fmt_x value_bits ++ "))"
            ++ nl) ;;
      forward (OnInitExprF32ConstExpr index value_bits)
  | OnInitExprF64ConstExpr index value_bits =>
      LOGF ("OnInitExprF64ConstExpr(index: " ++ fmt_u index ++ " value: "
            ++ fmt_g64 value_bits ++ " (0x08" ++ fmt_x64 value_bits ++ "))"
            ++ nl) ;;
      forward (OnInitExprF64ConstExpr index value_bits)
  | OnInitExprV128ConstExpr index value_bits =>
      LOGF ("OnInitExprV128ConstExpr(index: " ++ fmt_u index
            ++ " value: ( 0x" ++ fmt_08x (v_0 value_bits)
            ++ " 0x" ++ fmt_08x (v_1 value_bits)
            ++ " 0x" ++ fmt_08x (v_2 value_bits)
            ++ " 0x" ++ fmt_08x (v_3 value_bits) ++ "))" ++ nl) ;;
      forward (OnInitExprV128ConstExpr index value_bits)
  | OnInitExprI32ConstExpr index value =>
      LOGF ("OnInitExprI32ConstExpr(index: " ++ fmt_u index ++ ", value: "
            ++ fmt_u value ++ ")" ++ nl) ;;
      forward (OnInitExprI32ConstExpr index value)
  | OnInitExprI64ConstExpr index value =>
      LOGF ("OnInitExprI64ConstExpr(index: " ++ fmt_u index ++ ", value: "
            ++ fmt_u64 value ++ ")" ++ nl) ;;
      forward (OnInitExprI64ConstExpr index value)
  | OnDylinkInfo mem_size mem_align table_size table_align =>
      LOGF ("OnDylinkInfo(mem_size: " ++ fmt_u mem_size ++ ", mem_align: "
            ++ fmt_u mem_align ++ ", table_size: " ++ fmt_u table_size
            ++ ", table_align: " ++ fmt_u table_align ++ ")" ++ nl) ;;
      forward (OnDylinkInfo mem_size mem_align table_size table_align)
  | OnDylinkNeeded so_name =>
      LOGF ("OnDylinkNeeded(name: " ++ fmt_sv so_name ++ ")" ++ nl) ;;
      forward (OnDylinkNeeded so_name)
  | OnRelocCount count section_index =>
      LOGF ("OnRelocCount(count: " ++ fmt_u count ++ ", section: "
            ++ fmt_u section_index ++ ")" ++ nl) ;;
      forward (OnRelocCount count section_index)
  | OnReloc type offset index addend =>
      let signed_addend := to_signed 32 addend in
      LOGF ("OnReloc(type: " ++ GetRelocTypeName type ++ ", offset: "
            ++ fmt_zd offset ++ ", index: " ++ fmt_u index ++ ", addend: "
            ++ fmt_d signed_addend ++ ")" ++ nl) ;;
      forward (OnReloc type offset index addend)
  | OnSymbol symbol_index type flags =>
      LOGF ("OnSymbol(type: " ++ GetSymbolTypeName type ++ " flags: 0x"
            ++ fmt_x flags ++ ")" ++ nl) ;;
      forward (OnSymbol symbol_index type flags)
  | OnDataSymbol index flags name segment offset size =>
      LOGF ("OnDataSymbol(name: " ++ fmt_sv name ++ " flags: 0x"
            ++ fmt_x flags ++ ")" ++ nl) ;;
      forward (OnDataSymbol index flags name segment offset size)
  | OnFunctionSymbol index flags name func_index =>
      LOGF ("OnFunctionSymbol(name: " ++ fmt_sv name ++ " flags: 0x"
            ++ fmt_x flags ++ " index: " ++ fmt_u func_index ++ ")" ++ nl) ;;
      forward (OnFunctionSymbol index flags name func_index)
  | OnGlobalSymbol index flags name global_index =>
      LOGF ("OnGlobalSymbol(name: " ++ fmt_sv name ++ " flags: 0x"
            ++ fmt_x flags ++ " index: " ++ fmt_u global_index ++ ")" ++ nl) ;;
      forward (OnGlobalSymbol index flags name global_index)
  | OnSectionSymbol index flags section_index =>
      LOGF ("OnSectionSymbol(flags: 0x" ++ fmt_x flags ++ " index: "
            ++ fmt_u section_index ++ ")" ++ nl) ;;
      forward (OnSectionSymbol index flags section_index)
  | OnEventSymbol index flags name event_index =>
      LOGF ("OnEventSymbol(name: " ++ fmt_sv name ++ " flags: 0x"
            ++ fmt_x flags ++ " index: " ++ fmt_u event_index ++ ")" ++ nl) ;;
      forward (OnEventSymbol index flags name event_index)
  | OnSegmentInfo index name alignment flags =>
      LOGF ("OnSegmentInfo(" ++ fmt_d index ++ " name: " ++ fmt_sv name
            ++ ", alignment: " ++ fmt_d alignment ++ ", flags: 0x"
            ++ fmt_x flags ++ ")" ++ nl) ;;
      forward (OnSegmentInfo index name alignment flags)
  | OnInitFunction priority func_index =>
      LOGF ("OnInitFunction(" ++ fmt_d func_index ++ " priority: "
            ++ fmt_d priority ++ ")" ++ nl) ;;
      forward (OnInitFunction priority func_index)
  | OnComdatBegin name flags count =>
      LOGF ("OnComdatBegin(" ++ fmt_sv name ++ ", flags: " ++ fmt_d flags
            ++ ", count: " ++ fmt_u count ++ ")" ++ nl) ;;
      forward (OnComdatBegin name flags count)
  | OnComdatEntry kind index =>
      LOGF ("OnComdatEntry(kind: " ++ fmt_d kind ++ ", index: "
            ++ fmt_u index ++ ")" ++ nl) ;;
      forward (OnComdatEntry kind index)
  | DEFINE_BEGIN name size =>
      LOGF (BeginName_str name ++ "(" ++ fmt_zd size ++ ")" ++ nl) ;;
      Indent ;;
      forward (DEFINE_BEGIN name size)
  | DEFINE_END name =>
      Dedent ;;
      LOGF (EndName_str name ++ nl) ;;
      forward (DEFINE_END name)
  | DEFINE_INDEX name value =>
      LOGF (IndexName_str name ++ "(" ++ fmt_u value ++ ")" ++ nl) ;;
      forward (DEFINE_INDEX name value)
  | DEFINE_INDEX_DESC name value =>
      LOGF (IndexDescName_str name ++ "(" ++ IndexDescName_desc name ++ ": "
            ++ fmt_u value ++ ")" ++ nl) ;;
      forward (DEFINE_INDEX_DESC name value)
  | DEFINE_INDEX_INDEX name value0 value1 =>
      let '(desc0, desc1) := IndexIndexName_desc name in
      LOGF (IndexIndexName_str name ++ "(" ++ desc0 ++ ": " ++ fmt_u value0
            ++ ", " ++ desc1 ++ ": " ++ fmt_u value1 ++ ")" ++ nl) ;;
      forward (DEFINE_INDEX_INDEX name value0 value1)
  | DEFINE_INDEX_INDEX_BOOL name value0 value1 value2 =>
      let '(desc0, desc1, desc2) := IndexIndexBoolName_desc name in
      LOGF (IndexIndexBoolName_str name ++ "(" ++ desc0 ++ ": "
            ++ fmt_u value0 ++ ", " ++ desc1 ++ ": " ++ fmt_u value1 ++ ", "
            ++ desc2 ++ ": " ++ fmt_bool value2 ++ ")" ++ nl) ;;
      forward (DEFINE_INDEX_INDEX_BOOL name value0 value1 value2)
  | DEFINE_OPCODE name opcode =>
      LOGF (OpcodeName_str name ++ "(" ++ dq ++ Opcode_GetName opcode ++ dq
            ++ " (" ++ fmt_u (Opcode_GetCode opcode) ++ "))" ++ nl) ;;
      forward (DEFINE_OPCODE name opcode)
  | DEFINE_LOAD_STORE_OPCODE name opcode alignment_log2 offset =>
      LOGF (LoadStoreName_str name ++ "(opcode: " ++ dq
            ++ Opcode_GetName opcode ++ dq ++ " ("
            ++ fmt_u (Opcode_GetCode opcode) ++ "), align log2: "
            ++ fmt_u alignment_log2 ++ ", offset: " ++ fmt_u offset ++ ")"
            ++ nl) ;;
      forward (DEFINE_LOAD_STORE_OPCODE name opcode alignment_log2 offset)
  | DEFINE0 name =>
      LOGF (Name0_str name ++ nl) ;;
      forward (DEFINE0 name)
  | OnOpcode opcode => forward (OnOpcode opcode)
  | OnOpcodeBare => forward OnOpcodeBare
  | OnOpcodeIndex value => forward (OnOpcodeIndex value)
  | OnOpcodeIndexIndex value value2 => forward (OnOpcodeIndexIndex value value2)
  | OnOpcodeUint32 value => forward (OnOpcodeUint32 value)
  | OnOpcodeUint32Uint32 value value2 =>
      forward (OnOpcodeUint32Uint32 value value2)
  | OnOpcodeUint64 value => forward (OnOpcodeUint64 value)
  | OnOpcodeF32 value => forward (OnOpcodeF32 value)
  | OnOpcodeF64 value => forward (OnOpcodeF64 value)
  | OnOpcodeV128 value => forward (OnOpcodeV128 value)
  | OnOpcodeBlockSig sig_type => forward (OnOpcodeBlockSig sig_type)
  | OnEndFunc => forward OnEndFunc
  end.

(** The decoder drives the decorator with a sequence of calls; the
    results are collected in order.  A failed assertion ends the run. *)
Fixpoint run (cs : list Call) : M (list Ret) :=
  match cs with
  | [] => ret []
  | c :: rest =>
      r <- call c ;;
      rs <- run rest ;;
      ret (r :: rs)
  end.

(** ** Reading the effects *)

(** The calls made on the wrapped delegate, in order. *)
Fixpoint forwards (es : list Effect) : list Call :=
  match es with
  | [] => []
  | Forward c :: r => c :: forwards r
  | _ :: r => forwards r
  end.

(** The calls made on the stream, in order. *)
Fixpoint stream_calls (es : list Effect) : list Effect :=
  match es with
  | [] => []
  | Forward _ :: r => stream_calls r
  | e :: r => e :: stream_calls r
  end.

(** The text handed to [Writef], concatenated. *)
Fixpoint written_text (es : list Effect) : string :=
  match es with
  | [] => EmptyString
  | Writef text :: r => text ++ written_text r
  | _ :: r => written_text r
  end.

(** The bytes [WriteData] is asked for, in total. *)
Fixpoint requested_bytes (es : list Effect) : Z :=
  match es with
  | [] => 0
  | WriteData _ size :: r => size + requested_bytes r
  | _ :: r => requested_bytes r
  end.

(** Modelled from the spec: [Stream] (stream.h) is not part of the source.
    The output sink is an append-only byte sink: [WriteData(src, size)]
    appends the first [size] bytes of the array [src], and has no defined
    result ([None]) when [size] exceeds the array; [Writef] appends the
    formatted text. *)
Fixpoint Stream_output (es : list Effect) (out : string) : option string :=
  match es with
  | [] => Some out
  | WriteData src size :: r =>
      if size <=? Z.of_nat (String.length src)
      then Stream_output r (out ++ take (Z.to_nat size) src)
      else None
  | Writef text :: r => Stream_output r (out ++ text)
  | Forward _ :: r => Stream_output r out
  end.

(** The stream calls of [WriteIndent] at depth [indent], in closed form:
    one full chunk per iteration of the loop, then the final write. *)
Definition WriteIndent_loops (i : Z) : Z :=
  if i <=? s_indent_len then 0 else (i - 1) / s_indent_len.

Definition WriteIndent_effects (indent : Z) : list Effect :=
  let i := to_size_t indent in
  repeat (WriteData s_indent s_indent_len) (Z.to_nat (WriteIndent_loops i))
  ++ (if 0 <? i - WriteIndent_loops i * s_indent_len
      then [WriteData s_indent (to_size_t indent)]
      else []).

(** ** Structural regions

    A region is opened by a begin call and closed by the end call of the
    same kind.  [BeginSection] has no end call in the interface and opens
    no region here. *)

Inductive Region : Set :=
  | RModule
  | RCustomSection
  | RSection (name : BeginName)
  | RGlobal
  | RGlobalInitExpr
  | RFunctionBody
  | RElemSegment
  | RElemSegmentInitExpr
  | RDataSegment
  | RDataSegmentInitExpr.

Definition EndName_region (n : EndName) : Region :=
  match n with
  | EndModule => RModule
  | EndCustomSection => RCustomSection
  | EndTypeSection => RSection BeginTypeSection
  | EndImportSection => RSection BeginImportSection
  | EndFunctionSection => RSection BeginFunctionSection
  | EndTableSection => RSection BeginTableSection
  | EndMemorySection => RSection BeginMemorySection
  | EndGlobalSection => RSection BeginGlobalSection
  | EndExportSection => RSection BeginExportSection
  | EndStartSection => RSection BeginStartSection
  | EndCodeSection => RSection BeginCodeSection
  | EndElemSection => RSection BeginElemSection
  | EndDataSection => RSection BeginDataSection
  | EndDataCountSection => RSection BeginDataCountSection
  | EndNamesSection => RSection BeginNamesSection
  | EndRelocSection => RSection BeginRelocSection
  | EndDylinkSection => RSection BeginDylinkSection
  | EndLinkingSection => RSection BeginLinkingSection
  | EndEventSection => RSection BeginEventSection
  end.

(** The region a call opens, if any. *)
Definition begins (c : Call) : option Region :=
  match c with
  | BeginModule _ => Some RModule
  | BeginCustomSection _ _ => Some RCustomSection
  | DEFINE_BEGIN name _ => Some (RSection name)
  | BeginGlobal _ _ _ => Some RGlobal
  | DEFINE_INDEX BeginGlobalInitExpr _ => Some RGlobalInitExpr
  | BeginFunctionBody _ _ => Some RFunctionBody
  | BeginElemSegment _ _ _ _ => Some RElemSegment
  | DEFINE_INDEX BeginElemSegmentInitExpr _ => Some RElemSegmentInitExpr
  | DEFINE_INDEX_INDEX_BOOL BeginDataSegment _ _ _ => Some RDataSegment
  | DEFINE_INDEX BeginDataSegmentInitExpr _ => Some RDataSegmentInitExpr
  | _ => None
  end.

(** The region a call closes, if any. *)
Definition ends (c : Call) : option Region :=
  match c with
  | DEFINE_END name => Some (EndName_region name)
  | DEFINE_INDEX EndGlobal _ => Some RGlobal
  | DEFINE_INDEX EndGlobalInitExpr _ => Some RGlobalInitExpr
  | DEFINE_INDEX EndFunctionBody _ => Some RFunctionBody
  | DEFINE_INDEX EndElemSegment _ => Some RElemSegment
  | DEFINE_INDEX EndElemSegmentInitExpr _ => Some RElemSegmentInitExpr
  | DEFINE_INDEX EndDataSegment _ => Some RDataSegment
  | DEFINE_INDEX EndDataSegmentInitExpr _ => Some RDataSegmentInitExpr
  | _ => None
  end.

Definition BeginName_eqb (a b : BeginName) : bool :=
  String.eqb (BeginName_str a) (BeginName_str b).

Definition Region_eqb (a b : Region) : bool :=
  match a, b with
  | RModule, RModule => true
  | RCustomSection, RCustomSection => true
  | RSection n, RSection m => BeginName_eqb n m
  | RGlobal, RGlobal => true
  | RGlobalInitExpr, RGlobalInitExpr => true
  | RFunctionBody, RFunctionBody => true
  | RElemSegment, RElemSegment => true
  | RElemSegmentInitExpr, RElemSegmentInitExpr => true
  | RDataSegment, RDataSegment => true
  | RDataSegmentInitExpr, RDataSegmentInitExpr => true
  | _, _ => false
  end.

(** [nested open cs]: every end call of [cs] closes the innermost open
    region ([open], innermost first, are the regions open before [cs]),
    and no region is left open at the end. *)
Fixpoint nested (open : list Region) (cs : list Call) : bool :=
  match cs with
  | [] => match open with [] => true | _ :: _ => false end
  | c :: rest =>
      match begins c, ends c with
      | Some r, _ => nested (r :: open) rest
      | None, Some r =>
          match open with
          | r' :: open' => Region_eqb r r' && nested open' rest
          | [] => false
          end
      | None, None => nested open rest
      end
  end.

(** A well-formed sequence: every begin call is matched by exactly one end
    call of its kind, properly nested. *)
Definition well_formed (cs : list Call) : bool := nested [] cs.

(** The regions whose begin call is followed by [Indent()]. *)
Definition region_step (r : Region) : Z :=
  match r with
  | RModule | RCustomSection | RSection _ => INDENT_SIZE
  | _ => 0
  end.

(** ** Silent calls *)

(** The calls the specification exempts from rendering: the raw-opcode
    routing events and the state-snapshot event. *)
Definition spec_silent (c : Call) : bool :=
  match c with
  | OnSetState _
  | OnOpcode _ | OnOpcodeBare | OnOpcodeIndex _ | OnOpcodeIndexIndex _ _
  | OnOpcodeUint32 _ | OnOpcodeUint32Uint32 _ _ | OnOpcodeUint64 _
  | OnOpcodeF32 _ | OnOpcodeF64 _ | OnOpcodeV128 _ | OnOpcodeBlockSig _
  | OnEndFunc => true
  | _ => false
  end.

(** The calls whose method has no [LOGF]. *)
Definition silent (c : Call) : bool :=
  match c with
  | OnError _ | BeginSection _ _ _ => true
  | _ => spec_silent c
  end.

(** The precondition of [Dedent]'s assertion: an end call defined with
    [DEFINE_END] needs a depth of at least one step. *)
Definition leave_ok (c : Call) (b : BinaryReaderLogging) : Prop :=
  match c with
  | DEFINE_END _ => INDENT_SIZE <= indent_ b
  | _ => True
  end.

(** The hexadecimal field of the line of a float constant: what stands
    between the opening parenthesis after the decimal form and the two
    closing ones. *)
Definition f32_hex_field (value_bits : Z) : string := "0x04" ++ fmt_x value_bits.
Definition f64_hex_field (value_bits : Z) : string := "0x08" ++ fmt_x64 value_bits.

(** The text [LogType] writes. *)
Definition LogType_text (type : Type_) : string :=
  if IsTypeIndex type then "funcidx[" ++ fmt_d type ++ "]"
  else GetTypeName type.

(** The texts the loop of [LogTypes] writes. *)
Fixpoint LogTypes_for_texts (types : list Type_) : list string :=
  match types with
  | [] => []
  | type :: rest =>
      LogType_text type
      :: (match rest with [] => [] | _ :: _ => [", "] end)
      ++ LogTypes_for_texts rest
  end.

Definition LogTypes_texts (types : list Type_) : list string :=
  "[" :: LogTypes_for_texts types ++ ["]"].

Fixpoint OnBrTableExpr_for_texts (target_depths : list Index) : list string :=
  match target_depths with
  | [] => []
  | d :: rest =>
      fmt_u d
      :: (match rest with [] => [] | _ :: _ => [", "] end)
      ++ OnBrTableExpr_for_texts rest
  end.

Definition count_nl_types (types : list Type_) : nat :=
  fold_right (fun t n => (count_nl (LogType_text t) + n)%nat) O types.

(** Newlines that come with the arguments: in the names the module
    supplies, in the names of the tables of other translation units, and
    in the [%g] form of a float. *)
Definition ext_newlines (c : Call) : nat :=
  match c with
  | BeginCustomSection _ section_name => count_nl (fmt_sv section_name)
  | OnType _ param_types result_types =>
      count_nl_types param_types + count_nl_types result_types
  | OnImport _ module_name field_name =>
      count_nl (fmt_sv module_name) + count_nl (fmt_sv field_name)
  | OnImportTable _ _ _ _ elem_type _ => count_nl (GetTypeName elem_type)
  | OnImportGlobal _ _ _ _ type _ => count_nl (GetTypeName type)
  | OnTable _ elem_type _ => count_nl (GetTypeName elem_type)
  | BeginGlobal _ type _ => count_nl (GetTypeName type)
  | OnExport _ kind _ name =>
      count_nl (GetKindName kind) + count_nl (fmt_sv name)
  | OnLocalDecl _ _ type => count_nl (GetTypeName type)
  | OnBlockExpr sig_type | OnIfExpr sig_type | OnLoopExpr sig_type
  | OnTryExpr sig_type => count_nl (LogType_text sig_type)
  | OnF32ConstExpr value_bits | OnInitExprF32ConstExpr _ value_bits =>
      count_nl (fmt_g32 value_bits)
  | OnF64ConstExpr value_bits | OnInitExprF64ConstExpr _ value_bits =>
      count_nl (fmt_g64 value_bits)
  | BeginElemSegment _ _ _ elem_type => count_nl (GetTypeName elem_type)
  | OnModuleName name | OnFunctionName _ name | OnLocalName _ _ name
  | OnDylinkNeeded name | OnDataSymbol _ _ name _ _ _
  | OnFunctionSymbol _ _ name _ | OnGlobalSymbol _ _ name _
  | OnEventSymbol _ _ name _ | OnSegmentInfo _ name _ _
  | OnComdatBegin name _ _ => count_nl (fmt_sv name)
  | OnReloc type _ _ _ => count_nl (GetRelocTypeName type)
  | OnSymbol _ type _ => count_nl (GetSymbolTypeName type)
  | DEFINE_OPCODE _ opcode | DEFINE_LOAD_STORE_OPCODE _ opcode _ _ =>
      count_nl (Opcode_GetName opcode)
  | _ => O
  end%nat.

(** ** The decorator's state after a call *)

(** The state with the depth set to [n]. *)
Definition with_indent (n : Z) (w : World) : World :=
  {| self := {| indent_ := n; state := state (self w) |}; reader := reader w |}.

(** The effect of a call on the decorator's own state. *)
Definition delta (c : Call) : Z :=
  match c with
  | BeginModule _ | BeginCustomSection _ _ | DEFINE_BEGIN _ _ => INDENT_SIZE
  | DEFINE_END _ => - INDENT_SIZE
  | _ => 0
  end.

Definition after (c : Call) (b : BinaryReaderLogging) : BinaryReaderLogging :=
  {| indent_ := indent_ b + delta c;
     state := match c with OnSetState s => Some s | _ => state b end |}.

(** Concatenation of the texts of successive [Writef] calls. *)
Definition join (texts : list string) : string :=
  fold_right append EmptyString texts.

(** The depth a call's line is indented at. *)
Definition render_depth (c : Call) (b : BinaryReaderLogging) : Z :=
  match c with
  | DEFINE_END _ => indent_ b - INDENT_SIZE
  | _ => indent_ b
  end.

(** The depth after a call, when the method returns. *)
Definition depth_after (c : Call) (w : World) : option Z :=
  match snd (call c w) with
  | Done _ w' => Some (indent_ (self w'))
  | AssertFail => None
  end.

(** The steps the open regions have raised the depth by. *)
Definition open_steps (open : list Region) : Z :=
  fold_right (fun r n => region_step r + n) 0 open.

(** The lanes of a vector are 32-bit. *)
Definition v128_lanes_ok (x : v128) : Prop :=
  0 <= v_0 x < 2 ^ 32 /\ 0 <= v_1 x < 2 ^ 32
  /\ 0 <= v_2 x < 2 ^ 32 /\ 0 <= v_3 x < 2 ^ 32.

(** * Properties *)

(** ** Text *)

Lemma count_nl_app (a b : string) :
  count_nl (a ++ b) = (count_nl a + count_nl b)%nat.
Proof.
  induction a as [|c a IH]; simpl; [reflexivity|].
  rewrite IH. lia.
Qed.

Lemma length_app (a b : string) :
  String.length (a ++ b) = (String.length a + String.length b)%nat.
Proof. induction a as [|c a IH]; simpl; [reflexivity | now rewrite IH]. Qed.

Lemma append_assoc (a b c : string) : ((a ++ b) ++ c = a ++ b ++ c)%string.
Proof. induction a as [|x a IH]; simpl; [reflexivity | now rewrite IH]. Qed.

Lemma append_nil_r (a : string) : (a ++ "" = a)%string.
Proof. induction a as [|x a IH]; simpl; [reflexivity | now rewrite IH]. Qed.

Lemma length_repeat_char (c : ascii) (n : nat) :
  String.length (repeat_char c n) = n.
Proof. induction n; simpl; congruence. Qed.

Lemma digit_cases (d : Z) :
  0 <= d < 16 ->
  In d [0; 1; 2; 3; 4; 5; 6; 7; 8; 9; 10; 11; 12; 13; 14; 15].
Proof.
  intros H. simpl.
  assert (d = 0 \/ d = 1 \/ d = 2 \/ d = 3 \/ d = 4 \/ d = 5 \/ d = 6 \/ d = 7
          \/ d = 8 \/ d = 9 \/ d = 10 \/ d = 11 \/ d = 12 \/ d = 13 \/ d = 14
          \/ d = 15) by lia.
  intuition auto.
Qed.

Lemma hex_val_digit_char (d : Z) :
  0 <= d < 16 -> hex_val (digit_char d) = Some d.
Proof.
  intros H. apply digit_cases in H. simpl in H.
  repeat (destruct H as [<- | H]; [reflexivity|]). contradiction.
Qed.

Lemma digit_char_not_nl (d : Z) :
  0 <= d < 16 -> Ascii.eqb (digit_char d) (ascii_of_nat 10) = false.
Proof.
  intros H. apply digit_cases in H. simpl in H.
  repeat (destruct H as [<- | H]; [reflexivity|]). contradiction.
Qed.

(** The digits [radix_digits] puts in front of [acc]. *)
Lemma radix_digits_spec (base : Z) (fuel : nat) :
  2 <= base <= 16 ->
  forall n acc, 0 <= n < base ^ Z.of_nat fuel ->
  exists ds,
    radix_digits base fuel n acc = (ds ++ acc)%string
    /\ (String.length ds <= fuel)%nat
    /\ (fuel <> O -> String.length ds <> O)
    /\ count_nl ds = O
    /\ (base = 16 ->
        forall a, hex_value a ds = Some (a * 16 ^ Z.of_nat (String.length ds) + n)).
Proof.
  intros Hb. induction fuel as [|f IH]; intros n acc Hn.
  - exists "". simpl in *. repeat split; auto; try lia.
    intros _ a. f_equal. lia.
  - cbn [radix_digits].
    assert (Hm : 0 <= n mod base < 16) by (pose proof (Z.mod_pos_bound n base); lia).
    destruct (Z.eqb_spec (n / base) 0) as [Hq|Hq].
    + exists (String (digit_char (n mod base)) "").
      assert (Hsmall : n mod base = n).
      { apply Z.mod_small. split; [lia|].
        destruct (Z.ltb_spec n base); [assumption|].
        assert (1 <= n / base) by (apply Z.div_le_lower_bound; lia). lia. }
      repeat split.
      * simpl. lia.
      * simpl. discriminate.
      * cbn [count_nl]. now rewrite digit_char_not_nl by lia.
      * intros -> a. cbn [hex_value String.length].
        rewrite hex_val_digit_char by lia.
        f_equal. rewrite Hsmall. change (Z.of_nat 1) with 1. lia.
    + assert (Hq' : 0 <= n / base < base ^ Z.of_nat f).
      { split; [apply Z.div_pos; lia|].
        apply Z.div_lt_upper_bound; [lia|].
        rewrite Nat2Z.inj_succ, Z.pow_succ_r in Hn; lia. }
      destruct (IH (n / base) (String (digit_char (n mod base)) acc) Hq')
        as (ds & Heq & Hlen & Hne & Hnl & Hhex).
      exists (ds ++ String (digit_char (n mod base)) "")%string.
      rewrite Heq, append_assoc. cbn [append].
      repeat split.
      * rewrite length_app. simpl. lia.
      * rewrite length_app. simpl. lia.
      * rewrite count_nl_app. cbn [count_nl].
        rewrite digit_char_not_nl by lia. lia.
      * intros -> a.
        assert (Hval : forall s1 s2 a0 v,
                   hex_value a0 s1 = Some v ->
                   hex_value a0 (s1 ++ s2) = hex_value v s2).
        { induction s1 as [|c s1 IHs]; simpl; intros s2 a0 v Hv.
          - congruence.
          - destruct (hex_val c); [eauto | discriminate]. }
        rewrite (Hval _ _ _ _ (Hhex eq_refl a)). cbn [hex_value].
        rewrite hex_val_digit_char by lia. f_equal.
        rewrite length_app. cbn [String.length].
        replace (Z.of_nat (String.length ds + 1)) with (Z.of_nat (String.length ds) + 1) by lia.
        rewrite Z.pow_add_r by lia.
        pose proof (Z.div_mod n 16 ltac:(lia)). lia.
Qed.

Lemma wrap_range (bits n : Z) : 0 <= bits -> 0 <= wrap bits n < 2 ^ bits.
Proof. intros H. unfold wrap. apply Z.mod_pos_bound. now apply Z.pow_pos_nonneg. Qed.

Lemma wrap_small (bits n : Z) : 0 <= n < 2 ^ bits -> wrap bits n = n.
Proof. intros H. unfold wrap. now apply Z.mod_small. Qed.

Lemma radix_digits_nl (base : Z) (fuel : nat) (n : Z) :
  2 <= base <= 16 -> 0 <= n < base ^ Z.of_nat fuel ->
  count_nl (radix_digits base fuel n "") = O.
Proof.
  intros Hb Hn.
  destruct (radix_digits_spec base fuel Hb n "" Hn) as (ds & -> & _ & _ & H & _).
  now rewrite append_nil_r.
Qed.

Lemma radix_digits_length (base : Z) (fuel : nat) (n : Z) (acc : string) :
  (String.length (radix_digits base fuel n acc) <= fuel + String.length acc)%nat.
Proof.
  revert n acc. induction fuel as [|f IH]; intros n acc; cbn [radix_digits].
  - lia.
  - destruct (n / base =? 0).
    + simpl. lia.
    + specialize (IH (n / base) (String (digit_char (n mod base)) acc)).
      simpl in IH. lia.
Qed.

Lemma count_nl_fmt_u (n : Z) : count_nl (fmt_u n) = O.
Proof.
  unfold fmt_u. apply radix_digits_nl; [lia|].
  pose proof (wrap_range 32 n ltac:(lia)).
  change (10 ^ Z.of_nat 10) with 10000000000. change (2 ^ 32) with 4294967296 in *. lia.
Qed.

Lemma count_nl_fmt_u64 (n : Z) : count_nl (fmt_u64 n) = O.
Proof.
  unfold fmt_u64. apply radix_digits_nl; [lia|].
  pose proof (wrap_range 64 n ltac:(lia)).
  change (10 ^ Z.of_nat 20) with 100000000000000000000.
  change (2 ^ 64) with 18446744073709551616 in *. lia.
Qed.

Lemma count_nl_fmt_x (n : Z) : count_nl (fmt_x n) = O.
Proof.
  unfold fmt_x. apply radix_digits_nl; [lia|].
  pose proof (wrap_range 32 n ltac:(lia)).
  change (16 ^ Z.of_nat 8) with 4294967296. change (2 ^ 32) with 4294967296 in *. lia.
Qed.

Lemma count_nl_fmt_x64 (n : Z) : count_nl (fmt_x64 n) = O.
Proof.
  unfold fmt_x64. apply radix_digits_nl; [lia|].
  pose proof (wrap_range 64 n ltac:(lia)).
  change (16 ^ Z.of_nat 16) with 18446744073709551616.
  change (2 ^ 64) with 18446744073709551616 in *. lia.
Qed.

Lemma to_signed_range (bits n : Z) :
  1 <= bits -> - 2 ^ (bits - 1) <= to_signed bits n < 2 ^ (bits - 1).
Proof.
  intros H. unfold to_signed.
  pose proof (wrap_range bits n ltac:(lia)) as Hw.
  replace (2 ^ bits) with (2 * 2 ^ (bits - 1)) in *
    by (rewrite <- Z.pow_succ_r by lia; f_equal; lia).
  destruct (Z.ltb_spec (wrap bits n) (2 ^ (bits - 1))); lia.
Qed.

Lemma count_nl_fmt_d (n : Z) : count_nl (fmt_d n) = O.
Proof.
  unfold fmt_d, fmt_signed.
  pose proof (to_signed_range 32 n ltac:(lia)) as H.
  change (2 ^ (32 - 1)) with 2147483648 in H.
  assert (Hp : 10 ^ Z.of_nat 10 = 10000000000) by reflexivity.
  destruct (Z.ltb_spec (to_signed 32 n) 0).
  - change (String "-" ?s) with ("-" ++ s)%string.
    rewrite count_nl_app, radix_digits_nl by lia. reflexivity.
  - apply radix_digits_nl; lia.
Qed.

Lemma count_nl_fmt_zd (n : Z) : count_nl (fmt_zd n) = O.
Proof.
  unfold fmt_zd, fmt_signed.
  pose proof (to_signed_range 64 n ltac:(lia)) as H.
  change (2 ^ (64 - 1)) with 9223372036854775808 in H.
  assert (Hp : 10 ^ Z.of_nat 20 = 100000000000000000000) by reflexivity.
  destruct (Z.ltb_spec (to_signed 64 n) 0).
  - change (String "-" ?s) with ("-" ++ s)%string.
    rewrite count_nl_app, radix_digits_nl by lia. reflexivity.
  - apply radix_digits_nl; lia.
Qed.

Lemma count_nl_repeat_zero (n : nat) : count_nl (repeat_char "0" n) = O.
Proof. induction n; simpl; auto. Qed.

Lemma count_nl_fmt_08x (n : Z) : count_nl (fmt_08x n) = O.
Proof.
  unfold fmt_08x. cbv zeta.
  now rewrite count_nl_app, count_nl_repeat_zero, count_nl_fmt_x.
Qed.

Lemma count_nl_fmt_bool (b : bool) : count_nl (fmt_bool b) = O.
Proof. now destruct b. Qed.

Lemma count_nl_Limits_text (l : Limits) : count_nl (Limits_text l) = O.
Proof.
  unfold Limits_text. destruct (has_max l);
    now rewrite !count_nl_app, !count_nl_fmt_u64.
Qed.

(** The assertion of [SPrintLimits] holds for a buffer of 100 bytes. *)
Lemma Limits_text_fits (l : Limits) :
  (Z.of_nat (String.length (Limits_text l)) <? 100) = true.
Proof.
  apply Z.ltb_lt. unfold Limits_text, fmt_u64.
  pose proof (radix_digits_length 10 20 (wrap 64 (initial l)) "") as H1.
  pose proof (radix_digits_length 10 20 (wrap 64 (max l)) "") as H2.
  change (String.length "") with O in H1, H2.
  destruct (has_max l); rewrite !length_app;
    change (String.length "initial: ") with 9%nat;
    change (String.length ", max: ") with 7%nat; lia.
Qed.

(** ** Running the operations *)

Lemma s_indent_len_eq : s_indent_len = 142.
Proof. reflexivity. Qed.

Lemma bind_run {A B : Type} (m : M A) (f : A -> M B) w l a w1 :
  m w = (l, Done a w1) ->
  bind m f w = (l ++ fst (f a w1), snd (f a w1)).
Proof. intros H. unfold bind. rewrite H. now destruct (f a w1). Qed.

Lemma bind_fail {A B : Type} (m : M A) (f : A -> M B) w l :
  m w = (l, AssertFail) ->
  bind m f w = (l, AssertFail).
Proof. intros H. unfold bind. now rewrite H. Qed.

Lemma WriteIndent_loops_step (i : Z) :
  s_indent_len < i ->
  WriteIndent_loops i = 1 + WriteIndent_loops (i - s_indent_len).
Proof.
  unfold WriteIndent_loops. rewrite s_indent_len_eq. intros H.
  destruct (Z.leb_spec i 142); [lia|].
  destruct (Z.leb_spec (i - 142) 142).
  - symmetry. apply Z.div_unique with (r := i - 1 - 142); lia.
  - replace (i - 1) with ((i - 142 - 1) + 1 * 142) by lia.
    rewrite Z.div_add by lia. lia.
Qed.

Lemma WriteIndent_loops_nonneg (i : Z) : 0 <= WriteIndent_loops i.
Proof.
  unfold WriteIndent_loops. rewrite s_indent_len_eq.
  destruct (Z.leb_spec i 142); [lia|]. apply Z.div_pos; lia.
Qed.

Lemma WriteIndent_while_run (i : Z) (w : World) :
  WriteIndent_while i w
  = (repeat (WriteData s_indent s_indent_len) (Z.to_nat (WriteIndent_loops i)),
     Done (i - WriteIndent_loops i * s_indent_len) w).
Proof.
  funelim (WriteIndent_while i).
  - erewrite bind_run by reflexivity.
    match goal with
    | IH : unit -> World -> forall w, WriteIndent_while _ w = _ |- _ =>
        rewrite (IH tt w)
    end.
    cbn [fst snd].
    rewrite (WriteIndent_loops_step i) by lia.
    pose proof (WriteIndent_loops_nonneg (i - s_indent_len)).
    rewrite Z2Nat.inj_add by lia.
    change (Z.to_nat 1) with 1%nat. cbn [Nat.add repeat app].
    f_equal. f_equal. lia.
  - unfold WriteIndent_loops.
    destruct (Z.leb_spec i s_indent_len); [|lia].
    cbn [Z.to_nat repeat]. unfold ret. f_equal. f_equal. lia.
Qed.

Lemma WriteIndent_run (w : World) :
  WriteIndent w = (WriteIndent_effects (indent_ (self w)), Done tt w).
Proof.
  unfold WriteIndent, WriteIndent_effects.
  erewrite bind_run by reflexivity. cbn [fst snd].
  erewrite bind_run by apply WriteIndent_while_run. cbn [app].
  destruct (0 <? _); reflexivity.
Qed.

Lemma LOGF_run (text : string) (w : World) :
  LOGF text w
  = (WriteIndent_effects (indent_ (self w)) ++ [Writef text], Done tt w).
Proof.
  unfold LOGF. erewrite bind_run by apply WriteIndent_run. reflexivity.
Qed.

Lemma LogType_run (type : Type_) (w : World) :
  LogType type w = ([Writef (LogType_text type)], Done tt w).
Proof. unfold LogType, LogType_text. now destruct (IsTypeIndex type). Qed.

Lemma LogTypes_for_run (types : list Type_) (w : World) :
  LogTypes_for types w = (map Writef (LogTypes_for_texts types), Done tt w).
Proof.
  induction types as [|t rest IH]; [reflexivity|].
  cbn [LogTypes_for LogTypes_for_texts].
  erewrite bind_run by apply LogType_run.
  destruct rest as [|t' rest'].
  - reflexivity.
  - erewrite bind_run by reflexivity. rewrite IH. reflexivity.
Qed.

Lemma LogTypes_run (types : list Type_) (w : World) :
  LogTypes types w = (map Writef (LogTypes_texts types), Done tt w).
Proof.
  unfold LogTypes, LogTypes_texts.
  erewrite bind_run by reflexivity.
  erewrite bind_run by apply LogTypes_for_run.
  cbn. now rewrite map_app.
Qed.

Lemma OnBrTableExpr_for_run (target_depths : list Index) (w : World) :
  OnBrTableExpr_for target_depths w
  = (map Writef (OnBrTableExpr_for_texts target_depths), Done tt w).
Proof.
  induction target_depths as [|t rest IH]; [reflexivity|].
  cbn [OnBrTableExpr_for OnBrTableExpr_for_texts].
  erewrite bind_run by reflexivity.
  destruct rest as [|t' rest'].
  - reflexivity.
  - erewrite bind_run by reflexivity. rewrite IH. reflexivity.
Qed.

Lemma SPrintLimits_run (limits : Limits) (w : World) :
  SPrintLimits 100 limits w = ([], Done (Limits_text limits) w).
Proof.
  unfold SPrintLimits, bind, assert. cbn [fst snd].
  now rewrite Limits_text_fits.
Qed.

Lemma Indent_run (w : World) :
  Indent w = ([], Done tt (with_indent (indent_ (self w) + INDENT_SIZE) w)).
Proof. reflexivity. Qed.

Lemma Dedent_run (w : World) :
  Dedent w
  = ([], if 0 <=? indent_ (self w) - INDENT_SIZE
         then Done tt (with_indent (indent_ (self w) - INDENT_SIZE) w)
         else AssertFail).
Proof.
  unfold Dedent, bind, get_indent, set_indent, assert, with_indent.
  cbn [fst snd self indent_ state reader app].
  now destruct (0 <=? _).
Qed.

Lemma Dedent_ok (w : World) :
  INDENT_SIZE <= indent_ (self w) ->
  Dedent w = ([], Done tt (with_indent (indent_ (self w) - INDENT_SIZE) w)).
Proof.
  intros H. rewrite Dedent_run.
  destruct (Z.leb_spec 0 (indent_ (self w) - INDENT_SIZE)); [reflexivity | lia].
Qed.

Lemma Dedent_underflow (w : World) :
  indent_ (self w) < INDENT_SIZE ->
  Dedent w = ([], AssertFail).
Proof.
  intros H. rewrite Dedent_run.
  destruct (Z.leb_spec 0 (indent_ (self w) - INDENT_SIZE)); [lia | reflexivity].
Qed.

(** One step of a method: the first operation of a sequence returns. *)
Ltac run_one :=
  first
    [ apply LOGF_run | apply LogTypes_run | apply LogType_run
    | apply OnBrTableExpr_for_run | apply SPrintLimits_run
    | apply Indent_run | apply Dedent_ok; assumption
    | reflexivity ].

(** Runs the method of a call whose constructor is known. *)
Ltac run_call :=
  cbn [call IndexIndexName_desc IndexIndexBoolName_desc];
  repeat match goal with
         | |- context [IndexIndexName_desc ?n] => destruct (IndexIndexName_desc n)
         | |- context [IndexIndexBoolName_desc ?n] =>
             destruct (IndexIndexBoolName_desc n) as [[? ?] ?]
         end;
  repeat (erewrite bind_run by run_one; cbv beta);
  unfold forward, set_state, with_indent;
  cbn [fst snd self reader indent_ state];
  rewrite ?app_nil_l, ?app_assoc.

Lemma forwards_app (a b : list Effect) : forwards (a ++ b) = forwards a ++ forwards b.
Proof.
  induction a as [|e a IH]; [reflexivity|].
  destruct e; cbn [forwards app]; now rewrite IH.
Qed.

Lemma forwards_repeat_WriteData src size n :
  forwards (repeat (WriteData src size) n) = [].
Proof. induction n; auto. Qed.

Lemma forwards_WriteIndent_effects (d : Z) : forwards (WriteIndent_effects d) = [].
Proof.
  unfold WriteIndent_effects. cbv zeta.
  rewrite forwards_app, forwards_repeat_WriteData.
  now destruct (0 <? _).
Qed.

Lemma forwards_map_Writef (ts : list string) : forwards (map Writef ts) = [].
Proof. induction ts; auto. Qed.

(** Every method forwards its call, once and last, and returns what the
    wrapped delegate returns. *)
Lemma call_forwards (c : Call) (w : World) :
  leave_ok c (self w) ->
  exists pre,
    call c w
    = (pre ++ [Forward c],
       Done (fst (reader_ c (reader w)))
            {| self := after c (self w);
               reader := snd (reader_ c (reader w)) |})
    /\ forwards pre = [].
Proof.
  intros Hok. destruct w as [[d st] rd].
  destruct c; cbn [leave_ok self indent_] in Hok; run_call;
    unfold after, delta; cbn [indent_ state];
    rewrite ?Z.add_0_r;
    (eexists; split;
     [ first [ reflexivity | rewrite <- (app_nil_l [Forward _]) at 1; reflexivity ]
     | rewrite ?forwards_app, ?forwards_WriteIndent_effects, ?forwards_map_Writef;
       reflexivity ]).
Qed.


(** An end call at a depth below one step stops at [Dedent]'s assertion:
    nothing is written and nothing is forwarded. *)
Lemma call_underflow (name : EndName) (w : World) :
  indent_ (self w) < INDENT_SIZE ->
  call (DEFINE_END name) w = ([], AssertFail).
Proof.
  intros H. cbn [call].
  erewrite bind_fail by (apply Dedent_underflow; assumption). reflexivity.
Qed.

(** *** The line of a call *)

Lemma join_app (a b : list string) : join (a ++ b) = (join a ++ join b)%string.
Proof.
  unfold join. induction a as [|t a IH]; cbn [app fold_right]; [reflexivity|].
  now rewrite IH, append_assoc.
Qed.

Lemma join_cons (t : string) (ts : list string) : join (t :: ts) = (t ++ join ts)%string.
Proof. reflexivity. Qed.

Lemma stream_calls_app (a b : list Effect) :
  stream_calls (a ++ b) = stream_calls a ++ stream_calls b.
Proof.
  induction a as [|e a IH]; [reflexivity|].
  destruct e; cbn [stream_calls app]; now rewrite IH.
Qed.

Lemma stream_calls_repeat_WriteData src size n :
  stream_calls (repeat (WriteData src size) n) = repeat (WriteData src size) n.
Proof. induction n; cbn [repeat stream_calls]; congruence. Qed.

Lemma stream_calls_WriteIndent_effects (d : Z) :
  stream_calls (WriteIndent_effects d) = WriteIndent_effects d.
Proof.
  unfold WriteIndent_effects. cbv zeta.
  rewrite stream_calls_app, stream_calls_repeat_WriteData.
  now destruct (0 <? _).
Qed.

Lemma stream_calls_map_Writef (ts : list string) :
  stream_calls (map Writef ts) = map Writef ts.
Proof. induction ts; cbn [map stream_calls]; congruence. Qed.

Lemma written_text_app (a b : list Effect) :
  written_text (a ++ b) = (written_text a ++ written_text b)%string.
Proof.
  induction a as [|e a IH]; [reflexivity|].
  destruct e; cbn [written_text app]; rewrite IH; auto using append_assoc.
Qed.

Lemma written_text_WriteIndent_effects (d : Z) :
  written_text (WriteIndent_effects d) = EmptyString.
Proof.
  unfold WriteIndent_effects. cbv zeta. rewrite written_text_app.
  assert (H : forall n, written_text (repeat (WriteData s_indent s_indent_len) n) = "")
    by (induction n; auto).
  rewrite H. now destruct (0 <? _).
Qed.

Lemma written_text_map_Writef (ts : list string) :
  written_text (map Writef ts) = join ts.
Proof.
  induction ts as [|t ts IH]; [reflexivity|].
  cbn [map written_text]. now rewrite IH.
Qed.

Lemma Writef_nil : @nil Effect = map Writef [].
Proof. reflexivity. Qed.

Lemma Writef_cons t (es : list Effect) ts :
  es = map Writef ts -> Writef t :: es = map Writef (t :: ts).
Proof. now intros ->. Qed.

Lemma Writef_app a (es : list Effect) ts :
  es = map Writef ts -> map Writef a ++ es = map Writef (a ++ ts).
Proof. intros ->. now rewrite map_app. Qed.

Lemma count_nl_LogTypes_for_texts (types : list Type_) :
  count_nl (join (LogTypes_for_texts types)) = count_nl_types types.
Proof.
  induction types as [|t rest IH]; [reflexivity|].
  change (LogTypes_for_texts (t :: rest))
    with (LogType_text t
          :: (match rest with [] => [] | _ :: _ => [", "] end)
          ++ LogTypes_for_texts rest).
  change (count_nl_types (t :: rest))
    with (count_nl (LogType_text t) + count_nl_types rest)%nat.
  rewrite join_cons, count_nl_app, join_app, count_nl_app, IH.
  destruct rest; reflexivity.
Qed.

Lemma count_nl_LogTypes_texts (types : list Type_) :
  count_nl (join (LogTypes_texts types)) = count_nl_types types.
Proof.
  unfold LogTypes_texts.
  rewrite join_cons, count_nl_app, join_app, count_nl_app,
    count_nl_LogTypes_for_texts.
  change (count_nl "[") with O. change (count_nl (join ["]"])) with O. lia.
Qed.

Lemma count_nl_OnBrTableExpr_for_texts (ds : list Index) :
  count_nl (join (OnBrTableExpr_for_texts ds)) = O.
Proof.
  induction ds as [|t rest IH]; [reflexivity|].
  change (OnBrTableExpr_for_texts (t :: rest))
    with (fmt_u t
          :: (match rest with [] => [] | _ :: _ => [", "] end)
          ++ OnBrTableExpr_for_texts rest).
  rewrite join_cons, count_nl_app, join_app, count_nl_app, IH, count_nl_fmt_u.
  destruct rest; reflexivity.
Qed.

Lemma count_nl_dq : count_nl dq = O.
Proof. reflexivity. Qed.

Lemma count_nl_BeginName_str n : count_nl (BeginName_str n) = O.
Proof. now destruct n. Qed.
Lemma count_nl_EndName_str n : count_nl (EndName_str n) = O.
Proof. now destruct n. Qed.
Lemma count_nl_IndexName_str n : count_nl (IndexName_str n) = O.
Proof. now destruct n. Qed.
Lemma count_nl_IndexDescName_str n : count_nl (IndexDescName_str n) = O.
Proof. now destruct n. Qed.
Lemma count_nl_IndexDescName_desc n : count_nl (IndexDescName_desc n) = O.
Proof. now destruct n. Qed.
Lemma count_nl_IndexIndexName_str n : count_nl (IndexIndexName_str n) = O.
Proof. now destruct n. Qed.
Lemma count_nl_IndexIndexBoolName_str n : count_nl (IndexIndexBoolName_str n) = O.
Proof. now destruct n. Qed.
Lemma count_nl_OpcodeName_str n : count_nl (OpcodeName_str n) = O.
Proof. now destruct n. Qed.
Lemma count_nl_LoadStoreName_str n : count_nl (LoadStoreName_str n) = O.
Proof. now destruct n. Qed.
Lemma count_nl_Name0_str n : count_nl (Name0_str n) = O.
Proof. now destruct n. Qed.

Create Rewrite HintDb newlines.
#[local] Hint Rewrite count_nl_app count_nl_fmt_u count_nl_fmt_u64 count_nl_fmt_d
  count_nl_fmt_zd count_nl_fmt_x count_nl_fmt_x64 count_nl_fmt_08x
  count_nl_fmt_bool count_nl_Limits_text count_nl_LogTypes_texts
  count_nl_OnBrTableExpr_for_texts count_nl_dq count_nl_BeginName_str
  count_nl_EndName_str count_nl_IndexName_str count_nl_IndexDescName_str
  count_nl_IndexDescName_desc count_nl_IndexIndexName_str
  count_nl_IndexIndexBoolName_str count_nl_OpcodeName_str
  count_nl_LoadStoreName_str count_nl_Name0_str : newlines.

(** Evaluates [count_nl] on the string literals of the goal. *)
Ltac count_literals :=
  repeat match goal with
         | |- context [count_nl (String ?c ?r)] =>
             let n := eval vm_compute in (count_nl (String c r)) in
             change (count_nl (String c r)) with n
         end.

(** A call that is not silent writes one line: the indent prefix, then
    text that ends with a newline. *)
Lemma call_line (c : Call) (w : World) :
  leave_ok c (self w) ->
  silent c = false ->
  exists texts body,
    stream_calls (fst (call c w))
    = WriteIndent_effects (render_depth c (self w)) ++ map Writef texts
    /\ join texts = (body ++ nl)%string
    /\ count_nl body = ext_newlines c.
Proof.
  intros Hok Hs. destruct w as [[d st] rd].
  destruct c; try discriminate Hs; clear Hs;
    try match goal with n : IndexIndexName |- _ => destruct n end;
    try match goal with n : IndexIndexBoolName |- _ => destruct n end;
    cbn [leave_ok self indent_] in Hok; run_call;
    cbn [fst render_depth self indent_];
    rewrite ?stream_calls_app, ?stream_calls_WriteIndent_effects,
      ?stream_calls_map_Writef;
    cbn [stream_calls]; rewrite ?app_nil_r, <- ?app_assoc;
    eexists; eexists; (split; [|split]).
  all: try (apply (f_equal (app _)); cbn [app];
            repeat first [ apply Writef_app | apply Writef_cons
                         | apply Writef_nil ]).
  all: try (repeat first [ rewrite join_cons | rewrite join_app ];
            change (join []) with EmptyString;
            rewrite ?append_nil_r, <- ?append_assoc; reflexivity).
  all: cbn [ext_newlines]; autorewrite with newlines; count_literals; lia.
Qed.

(** A silent call writes nothing. *)
Lemma call_silent (c : Call) (w : World) :
  silent c = true -> stream_calls (fst (call c w)) = [].
Proof.
  intros Hs. destruct c; try discriminate Hs; clear Hs; run_call; reflexivity.
Qed.


(** ** Forwarding *)

(** C1 (amended) -- Transparency of forwarding.  For every call of the
    interface and all its arguments, provided that an end call defined with
    [DEFINE_END] comes at a depth of at least one step, the method makes
    exactly one call on the wrapped delegate, the same call with the same
    arguments, and returns exactly what the delegate returns for it; the
    delegate's state is the one that call leaves.  The hypothesis is the
    precondition of [Dedent]'s assertion: below one step the method stops
    at the assertion before it forwards. *)
Theorem forwarding_transparent (c : Call) (w : World) :
  leave_ok c (self w) ->
  forwards (fst (call c w)) = [c]
  /\ exists w',
       snd (call c w) = Done (fst (reader_ c (reader w))) w'
       /\ reader w' = snd (reader_ c (reader w)).
Proof.
  intros Hok.
  destruct (call_forwards c w Hok) as (pre & Hrun & Hpre).
  rewrite Hrun. cbn [fst snd]. split.
  - rewrite forwards_app, Hpre. reflexivity.
  - eexists. split; reflexivity.
Qed.

(** ** Depth *)

Lemma depth_after_ok (c : Call) (w : World) :
  leave_ok c (self w) ->
  depth_after c w = Some (indent_ (self w) + delta c).
Proof.
  intros Hok. unfold depth_after.
  destruct (call_forwards c w Hok) as (pre & -> & _). reflexivity.
Qed.

(** C9 -- [Dedent] decreases the depth by one step; its assertion holds
    exactly when the depth before the call is at least one step, and
    fails otherwise, in particular at depth zero: the method stops there
    and returns no result. *)
Theorem Dedent_assertion (w : World) :
  Dedent w
  = ([], if INDENT_SIZE <=? indent_ (self w)
         then Done tt (with_indent (indent_ (self w) - INDENT_SIZE) w)
         else AssertFail)
  /\ (indent_ (self w) = 0 -> Dedent w = ([], AssertFail)).
Proof.
  split.
  - destruct (Z.leb_spec INDENT_SIZE (indent_ (self w))) as [H|H].
    + now apply Dedent_ok.
    + now apply Dedent_underflow.
  - intros H. apply Dedent_underflow. rewrite H. reflexivity.
Qed.

(** C6 (amended) -- The calls that open a module, a custom section or a
    typed section ([BeginModule], [BeginCustomSection], the methods of
    [DEFINE_BEGIN]) raise the depth by one step of two columns, and the
    end calls of [DEFINE_END] lower it by the same step; a line written in
    between is indented at the raised depth.  The calls that open a
    function body or a global leave the depth as it is. *)
Theorem depth_steps (w : World) :
  INDENT_SIZE = 2
  /\ (forall version,
        depth_after (BeginModule version) w
        = Some (indent_ (self w) + INDENT_SIZE))
  /\ (forall size section_name,
        depth_after (BeginCustomSection size section_name) w
        = Some (indent_ (self w) + INDENT_SIZE))
  /\ (forall name size,
        depth_after (DEFINE_BEGIN name size) w
        = Some (indent_ (self w) + INDENT_SIZE))
  /\ (forall name,
        INDENT_SIZE <= indent_ (self w) ->
        depth_after (DEFINE_END name) w
        = Some (indent_ (self w) - INDENT_SIZE))
  /\ (forall c,
        silent c = false -> leave_ok c (self w) ->
        exists texts,
          stream_calls (fst (call c w))
          = WriteIndent_effects (render_depth c (self w)) ++ map Writef texts)
  /\ (forall value size,
        depth_after (BeginFunctionBody value size) w = Some (indent_ (self w)))
  /\ (forall index type mutable_,
        depth_after (BeginGlobal index type mutable_) w
        = Some (indent_ (self w))).
Proof.
  split; [reflexivity|].
  split; [intros; now rewrite depth_after_ok|].
  split; [intros; now rewrite depth_after_ok|].
  split; [intros; now rewrite depth_after_ok|].
  split.
  { intros name H. rewrite depth_after_ok by assumption.
    cbn [delta]. f_equal; lia. }
  split.
  { intros c Hs Hok.
    destruct (call_line c w Hok Hs) as (texts & _ & Hline & _). eauto. }
  split; intros; rewrite depth_after_ok by exact I; cbn [delta]; f_equal; lia.
Qed.

(** The end calls defined with [DEFINE_INDEX] write their argument and
    leave the depth as it is. *)
Lemma index_end_call_line (name : IndexName) (value : Index) (w : World) :
  call (DEFINE_INDEX name value) w
  = (WriteIndent_effects (indent_ (self w))
     ++ [Writef (IndexName_str name ++ "(" ++ fmt_u value ++ ")" ++ nl);
         Forward (DEFINE_INDEX name value)],
     Done (fst (reader_ (DEFINE_INDEX name value) (reader w)))
          {| self := self w;
             reader := snd (reader_ (DEFINE_INDEX name value) (reader w)) |}).
Proof.
  destruct w as [[d st] rd]. cbn [self indent_ state reader] in *.
  run_call. rewrite <- app_assoc. reflexivity.
Qed.

(** C7 (amended) -- An end call defined with [DEFINE_END] ([EndModule],
    [EndCustomSection] and the end of each typed section) first lowers the
    depth, then writes its line, indented at the lowered depth and made of
    the method's name alone, then forwards.  The end calls defined with
    [DEFINE_INDEX] ([EndFunctionBody], [EndGlobal], the ends of
    initializer expressions and of segments) do not lower the depth, and
    their line carries the index they receive. *)
Theorem end_call_line (w : World) :
  (forall name,
      INDENT_SIZE <= indent_ (self w) ->
      call (DEFINE_END name) w
      = (WriteIndent_effects (indent_ (self w) - INDENT_SIZE)
         ++ [Writef (EndName_str name ++ nl); Forward (DEFINE_END name)],
         Done (fst (reader_ (DEFINE_END name) (reader w)))
              {| self := {| indent_ := indent_ (self w) - INDENT_SIZE;
                            state := state (self w) |};
                 reader := snd (reader_ (DEFINE_END name) (reader w)) |}))
  /\ (forall name value,
        ends (DEFINE_INDEX name value) <> None ->
        call (DEFINE_INDEX name value) w
        = (WriteIndent_effects (indent_ (self w))
           ++ [Writef (IndexName_str name ++ "(" ++ fmt_u value ++ ")" ++ nl);
               Forward (DEFINE_INDEX name value)],
           Done (fst (reader_ (DEFINE_INDEX name value) (reader w)))
                {| self := self w;
                   reader := snd (reader_ (DEFINE_INDEX name value) (reader w)) |})).
Proof.
  split.
  - intros name H. destruct w as [[d st] rd].
    cbn [self indent_ state reader] in *.
    run_call. rewrite <- app_assoc. reflexivity.
  - intros name value _. apply index_end_call_line.
Qed.

(** ** Lines *)

(** C2 (amended) -- Provided that an end call defined with [DEFINE_END]
    comes at a depth of at least one step, the precondition of [Dedent]'s
    assertion: every call forwards once.  The calls without a [LOGF] --
    the raw-opcode calls with [OnEndFunc], [OnSetState], [OnError] and
    [BeginSection] -- write nothing on the stream.  Every other call
    writes exactly one line: one indent prefix, then text that ends with a
    newline and holds no other newline than those of its name arguments. *)
Theorem one_line_or_silent (c : Call) (w : World) :
  leave_ok c (self w) ->
  forwards (fst (call c w)) = [c]
  /\ (silent c = true -> stream_calls (fst (call c w)) = [])
  /\ (silent c = false ->
      exists texts body,
        stream_calls (fst (call c w))
        = WriteIndent_effects (render_depth c (self w)) ++ map Writef texts
        /\ join texts = (body ++ nl)%string
        /\ count_nl body = ext_newlines c).
Proof.
  intros Hok. split; [|split].
  - destruct (call_forwards c w Hok) as (pre & -> & Hpre).
    cbn [fst]. now rewrite forwards_app, Hpre.
  - intros Hs. now apply call_silent.
  - intros Hs. now apply call_line.
Qed.


(** ** Balance *)

Lemma region_step_nonneg (r : Region) : 0 <= region_step r.
Proof. destruct r; cbn; unfold INDENT_SIZE; lia. Qed.

Lemma open_steps_nonneg (open : list Region) : 0 <= open_steps open.
Proof.
  induction open as [|r open IH]; cbn; [lia|].
  pose proof (region_step_nonneg r). unfold open_steps in IH. lia.
Qed.

Lemma BeginName_eqb_eq (a b : BeginName) : BeginName_eqb a b = true -> a = b.
Proof. destruct a, b; intros H; first [reflexivity | discriminate H]. Qed.

Lemma Region_eqb_eq (a b : Region) : Region_eqb a b = true -> a = b.
Proof.
  destruct a, b; cbn; intros H; try reflexivity; try discriminate H.
  f_equal. now apply BeginName_eqb_eq.
Qed.

Lemma begins_delta (c : Call) (r : Region) :
  begins c = Some r -> delta c = region_step r /\ forall b, leave_ok c b.
Proof.
  destruct c; cbn [begins]; intros H; try discriminate H;
    try (injection H as <-; split; [reflexivity | intros; exact I]).
  - destruct name; try discriminate H;
      (injection H as <-; split; [reflexivity | intros; exact I]).
  - destruct name; (injection H as <-; split; [reflexivity | intros; exact I]).
Qed.

Lemma ends_delta (c : Call) (r : Region) :
  begins c = None -> ends c = Some r ->
  delta c = - region_step r
  /\ forall b, region_step r <= indent_ b -> leave_ok c b.
Proof.
  destruct c; cbn [begins ends]; intros Hb H; try discriminate H.
  - injection H as <-. destruct name; split; try reflexivity; intros b Hd; exact Hd.
  - destruct name; try discriminate H; try discriminate Hb;
      (injection H as <-; split; [reflexivity | intros; exact I]).
Qed.

Lemma leaf_delta (c : Call) :
  begins c = None -> ends c = None -> delta c = 0 /\ forall b, leave_ok c b.
Proof.
  destruct c; cbn [begins ends]; intros Hb He;
    try discriminate Hb; try discriminate He;
    split; try reflexivity; intros; exact I.
Qed.

Lemma call_depth (c : Call) (w : World) :
  leave_ok c (self w) ->
  exists effs r w',
    call c w = (effs, Done r w')
    /\ indent_ (self w') = indent_ (self w) + delta c.
Proof.
  intros Hok. destruct (call_forwards c w Hok) as (pre & -> & _).
  eexists _, _, _. split; reflexivity.
Qed.

Lemma run_cons (c : Call) (rest : list Call) (w : World) effs r w1 :
  call c w = (effs, Done r w1) ->
  run (c :: rest) w
  = (effs ++ fst (run rest w1),
     match snd (run rest w1) with
     | Done rs w2 => Done (r :: rs) w2
     | AssertFail => AssertFail
     end).
Proof.
  intros H. cbn [run]. erewrite bind_run by exact H.
  unfold bind, ret. destruct (run rest w1) as [l [rs w2|]]; cbn [fst snd].
  - now rewrite app_nil_r.
  - reflexivity.
Qed.

Lemma nested_run (cs : list Call) :
  forall (open : list Region) (w : World),
    nested open cs = true ->
    open_steps open <= indent_ (self w) ->
    exists effs rs w',
      run cs w = (effs, Done rs w')
      /\ indent_ (self w') = indent_ (self w) - open_steps open.
Proof.
  induction cs as [|c rest IH]; intros open w Hn Hd.
  - destruct open; [|discriminate Hn].
    exists [], [], w. split; [reflexivity | cbn; lia].
  - cbn [nested] in Hn.
    destruct (begins c) as [r|] eqn:Hb; [|destruct (ends c) as [r|] eqn:He].
    + destruct (begins_delta c r Hb) as [Hdelta Hok].
      destruct (call_depth c w (Hok _)) as (effs & x & w1 & Hc & Hi).
      assert (Hd1 : open_steps (r :: open) <= indent_ (self w1)).
      { change (open_steps (r :: open)) with (region_step r + open_steps open).
        clear - Hd Hi Hdelta. lia. }
      destruct (IH (r :: open) w1 Hn Hd1) as (effs' & rs & w2 & Hr & Hi').
      rewrite (run_cons _ _ _ _ _ _ Hc), Hr. cbn [fst snd].
      eexists _, _, _. split; [reflexivity|].
      change (open_steps (r :: open)) with (region_step r + open_steps open) in Hi'.
      clear - Hi Hi' Hdelta. lia.
    + destruct open as [|r' open']; [discriminate Hn|].
      apply andb_prop in Hn as [Heq Hn]. apply Region_eqb_eq in Heq. subst r'.
      change (open_steps (r :: open')) with (region_step r + open_steps open') in *.
      pose proof (open_steps_nonneg open') as Hnn.
      destruct (ends_delta c r Hb He) as [Hdelta Hok].
      assert (Hr0 : region_step r <= indent_ (self w)) by (clear - Hd Hnn; lia).
      destruct (call_depth c w (Hok _ Hr0)) as (effs & x & w1 & Hc & Hi).
      assert (Hd1 : open_steps open' <= indent_ (self w1))
        by (clear - Hd Hi Hdelta; lia).
      destruct (IH open' w1 Hn Hd1) as (effs' & rs & w2 & Hr & Hi').
      rewrite (run_cons _ _ _ _ _ _ Hc), Hr. cbn [fst snd].
      eexists _, _, _. split; [reflexivity|].
      clear - Hi Hi' Hdelta. lia.
    + destruct (leaf_delta c Hb He) as [Hdelta Hok].
      destruct (call_depth c w (Hok _)) as (effs & x & w1 & Hc & Hi).
      assert (Hd1 : open_steps open <= indent_ (self w1))
        by (clear - Hd Hi Hdelta; lia).
      destruct (IH open w1 Hn Hd1) as (effs' & rs & w2 & Hr & Hi').
      rewrite (run_cons _ _ _ _ _ _ Hc), Hr. cbn [fst snd].
      eexists _, _, _. split; [reflexivity|].
      clear - Hi Hi' Hdelta. lia.
Qed.

(** C5 -- Indentation balance.  The decorator runs through every
    well-formed sequence of calls (each begin call matched by one end
    call of its kind, properly nested) without a failed assertion, and the
    depth after the last call is the depth before the first: zero for a
    session that starts from the constructor's state. *)
Theorem indentation_balance (cs : list Call) (w : World) :
  well_formed cs = true ->
  0 <= indent_ (self w) ->
  exists effs rs w',
    run cs w = (effs, Done rs w')
    /\ indent_ (self w') = indent_ (self w)
    /\ (self w = new_BinaryReaderLogging -> indent_ (self w') = 0).
Proof.
  intros Hwf Hd.
  destruct (nested_run cs [] w Hwf Hd) as (effs & rs & w' & Hrun & Hi).
  change (open_steps []) with 0 in Hi. rewrite Z.sub_0_r in Hi.
  exists effs, rs, w'. split; [exact Hrun|]. split; [exact Hi|].
  intros Hnew. rewrite Hi, Hnew. reflexivity.
Qed.


(** ** The indent prefix *)

Lemma take_repeat_char (c : ascii) (n m : nat) (r : string) :
  (n <= m)%nat -> take n (repeat_char c m ++ r) = repeat_char c n.
Proof.
  revert m. induction n as [|n IH]; intros m H.
  - now destruct (repeat_char c m ++ r)%string.
  - destruct m as [|m]; [lia|]. cbn. f_equal. apply IH. lia.
Qed.

(** Up to the length of the buffer, [WriteIndent] makes a single write of
    [indent_] bytes (none at depth zero), and the stream receives exactly
    that many spaces. *)
Lemma WriteIndent_within_buffer (d : Z) (out : string) :
  0 <= d <= s_indent_len ->
  WriteIndent_effects d = (if 0 <? d then [WriteData s_indent d] else [])
  /\ Stream_output (WriteIndent_effects d) out
     = Some (out ++ repeat_char space (Z.to_nat d))%string.
Proof.
  intros H. rewrite s_indent_len_eq in H.
  assert (Hw : to_size_t d = d).
  { unfold to_size_t. apply wrap_small.
    change (2 ^ 64) with 18446744073709551616. lia. }
  assert (He : WriteIndent_effects d = if 0 <? d then [WriteData s_indent d] else []).
  { unfold WriteIndent_effects, WriteIndent_loops. cbv zeta.
    rewrite Hw, s_indent_len_eq.
    destruct (Z.leb_spec d 142); [|lia].
    cbn [Z.to_nat repeat app]. rewrite Z.mul_0_l, Z.sub_0_r. reflexivity. }
  split; [exact He|]. rewrite He.
  destruct (Z.ltb_spec 0 d) as [Hd|Hd].
  - cbn [Stream_output].
    change (Z.of_nat (String.length s_indent)) with 143.
    destruct (Z.leb_spec d 143); [|lia].
    unfold s_indent. rewrite take_repeat_char by lia. reflexivity.
  - replace d with 0 by lia. cbn. now rewrite append_nil_r.
Qed.

(** Beyond the buffer the loop writes its chunks and the final write then
    asks for [indent_] bytes again: more bytes than the depth in total. *)
Lemma WriteIndent_beyond_buffer (d : Z) :
  s_indent_len < d < 2 ^ 64 ->
  requested_bytes (WriteIndent_effects d)
  = d + s_indent_len * ((d - 1) / s_indent_len)
  /\ d < requested_bytes (WriteIndent_effects d).
Proof.
  intros H. rewrite s_indent_len_eq in *.
  assert (Hw : to_size_t d = d) by (unfold to_size_t; apply wrap_small; lia).
  assert (Hk : 1 <= (d - 1) / 142) by (apply Z.div_le_lower_bound; lia).
  assert (Hrep : forall n, requested_bytes (repeat (WriteData s_indent 142) n)
                           = 142 * Z.of_nat n).
  { induction n as [|n IH]; [reflexivity|].
    cbn [repeat requested_bytes]. rewrite IH. lia. }
  assert (Happ : forall a b, requested_bytes (a ++ b)
                             = requested_bytes a + requested_bytes b).
  { induction a as [|e a IH]; intros b; [reflexivity|].
    destruct e; cbn [app requested_bytes]; rewrite IH; lia. }
  assert (Heq : requested_bytes (WriteIndent_effects d) = d + 142 * ((d - 1) / 142)).
  { unfold WriteIndent_effects, WriteIndent_loops. cbv zeta.
    rewrite Hw, s_indent_len_eq.
    destruct (Z.leb_spec d 142); [lia|].
    rewrite Happ, Hrep, Z2Nat.id by lia.
    pose proof (Z.mod_pos_bound (d - 1) 142 ltac:(lia)).
    pose proof (Z.div_mod (d - 1) 142 ltac:(lia)).
    destruct (Z.ltb_spec 0 (d - (d - 1) / 142 * 142)); [|lia].
    cbn [requested_bytes]. lia. }
  split; [exact Heq | lia].
Qed.

(** C3 -- [WriteIndent] at depth 144, the first even depth past the
    buffer: one chunk of 142 bytes, then a write of 144 bytes from the
    143-byte array, 286 bytes requested where 144 spaces are due. *)
Theorem WriteIndent_at_144 (st : option StatePtr) (rd : Reader) :
  let w := {| self := {| indent_ := 144; state := st |}; reader := rd |} in
  WriteIndent w
  = ([WriteData s_indent 142; WriteData s_indent 144], Done tt w)
  /\ requested_bytes (fst (WriteIndent w)) = 286
  /\ Stream_output (fst (WriteIndent w)) "" = None.
Proof.
  intros w. rewrite WriteIndent_run. cbn [fst self indent_ w].
  assert (He : WriteIndent_effects 144
               = [WriteData s_indent 142; WriteData s_indent 144])
    by (vm_compute; reflexivity).
  rewrite He. split; [reflexivity|]. split; vm_compute; reflexivity.
Qed.

(** ** Hexadecimal fields *)

Lemma hex_value_zeros (n : nat) (s : string) :
  hex_value 0 (repeat_char "0" n ++ s) = hex_value 0 s.
Proof. induction n as [|n IH]; [reflexivity|]. cbn. exact IH. Qed.

Lemma fmt_x_spec (n : Z) :
  exists k : nat,
    (1 <= k <= 8)%nat /\ String.length (fmt_x n) = k
    /\ forall a, hex_value a (fmt_x n) = Some (a * 16 ^ Z.of_nat k + wrap 32 n).
Proof.
  unfold fmt_x.
  pose proof (wrap_range 32 n ltac:(lia)) as Hr.
  destruct (radix_digits_spec 16 8 ltac:(lia) (wrap 32 n) "") as
    (ds & -> & Hlen & Hne & _ & Hhex).
  { change (16 ^ Z.of_nat 8) with (2 ^ 32). exact Hr. }
  rewrite append_nil_r. exists (String.length ds).
  specialize (Hne ltac:(discriminate)).
  split; [lia|]. split; [reflexivity|]. now apply Hhex.
Qed.

Lemma fmt_x64_spec (n : Z) :
  exists k : nat,
    (1 <= k <= 16)%nat /\ String.length (fmt_x64 n) = k
    /\ forall a, hex_value a (fmt_x64 n) = Some (a * 16 ^ Z.of_nat k + wrap 64 n).
Proof.
  unfold fmt_x64.
  pose proof (wrap_range 64 n ltac:(lia)) as Hr.
  destruct (radix_digits_spec 16 16 ltac:(lia) (wrap 64 n) "") as
    (ds & -> & Hlen & Hne & _ & Hhex).
  { change (16 ^ Z.of_nat 16) with (2 ^ 64). exact Hr. }
  rewrite append_nil_r. exists (String.length ds).
  specialize (Hne ltac:(discriminate)).
  split; [lia|]. split; [reflexivity|]. now apply Hhex.
Qed.

Lemma fmt_08x_spec (n : Z) :
  0 <= n < 2 ^ 32 ->
  String.length (fmt_08x n) = 8%nat
  /\ parse_hex ("0x" ++ fmt_08x n) = Some n.
Proof.
  intros Hn. unfold fmt_08x. cbv zeta.
  destruct (fmt_x_spec n) as (k & Hk & Hlen & Hhex).
  rewrite Hlen. split.
  - rewrite length_app, length_repeat_char, Hlen. lia.
  - assert (Hp : forall s, s <> EmptyString -> parse_hex ("0x" ++ s) = hex_value 0 s).
    { intros [|c r] Hs; [congruence | reflexivity]. }
    rewrite Hp.
    + rewrite hex_value_zeros, Hhex, wrap_small by exact Hn. f_equal; lia.
    + intros Hs. apply (f_equal String.length) in Hs.
      rewrite length_app, length_repeat_char, Hlen in Hs. cbn in Hs. lia.
Qed.

Lemma Some_Z_inj (a b : Z) : Some a = Some b -> a = b.
Proof. congruence. Qed.

(** The text a call made of one [LOGF] writes. *)
Ltac line_text :=
  run_call; cbn [fst];
  rewrite ?written_text_app, ?written_text_WriteIndent_effects;
  cbn [written_text]; rewrite ?append_nil_r; reflexivity.

(** C4 -- The hexadecimal field of a float constant's line is the
    literal [0x04] (resp. [0x08]) followed by the unpadded digits of the
    bits: read back as hexadecimal it never gives the bits back.  For the
    bits of 1.0f, 0x3f800000, the field reads 0x043f800000. *)
Theorem float_hex_field_lossy (w : World) :
  (forall value_bits,
      written_text (fst (call (OnF32ConstExpr value_bits) w))
      = ("OnF32ConstExpr(" ++ fmt_g32 value_bits ++ " ("
         ++ f32_hex_field value_bits ++ "))" ++ nl)%string)
  /\ (forall value_bits,
      written_text (fst (call (OnF64ConstExpr value_bits) w))
      = ("OnF64ConstExpr(" ++ fmt_g64 value_bits ++ " ("
         ++ f64_hex_field value_bits ++ "))" ++ nl)%string)
  /\ f32_hex_field 1065353216 = "0x043f800000"
  /\ parse_hex (f32_hex_field 1065353216) = Some 18245222400
  /\ (forall value_bits,
      parse_hex (f32_hex_field value_bits) <> Some (wrap 32 value_bits))
  /\ (forall value_bits,
      parse_hex (f64_hex_field value_bits) <> Some (wrap 64 value_bits)).
Proof.
  destruct w as [[d st] rd].
  split; [intros; line_text|].
  split; [intros; line_text|].
  split; [vm_compute; reflexivity|].
  split; [vm_compute; reflexivity|].
  split; intros bits.
  - destruct (fmt_x_spec bits) as (k & Hk & Hlen & Hhex).
    assert (Hp : parse_hex (f32_hex_field bits)
                 = Some (4 * 16 ^ Z.of_nat k + wrap 32 bits)).
    { unfold f32_hex_field. cbn [append parse_hex hex_value].
      change (hex_val "0") with (Some 0). change (hex_val "4") with (Some 4).
      cbv iota. now rewrite Hhex. }
    rewrite Hp. intros H. apply Some_Z_inj in H.
    assert (Hpos : 0 < 16 ^ Z.of_nat k) by (apply Z.pow_pos_nonneg; lia).
    clear - H Hpos. lia.
  - destruct (fmt_x64_spec bits) as (k & Hk & Hlen & Hhex).
    assert (Hp : parse_hex (f64_hex_field bits)
                 = Some (8 * 16 ^ Z.of_nat k + wrap 64 bits)).
    { unfold f64_hex_field. cbn [append parse_hex hex_value].
      change (hex_val "0") with (Some 0). change (hex_val "8") with (Some 8).
      cbv iota. now rewrite Hhex. }
    rewrite Hp. intros H. apply Some_Z_inj in H.
    assert (Hpos : 0 < 16 ^ Z.of_nat k) by (apply Z.pow_pos_nonneg; lia).
    clear - H Hpos. lia.
Qed.

(** C8 -- Vector lane order.  The line of a 128-bit vector constant is
    made of the method's name and four hexadecimal words of eight digits,
    each after [0x]; read back, the first word is lane 0, the second
    lane 1, the third lane 2 and the fourth lane 3.  The same holds for
    the vector constant of an initializer expression. *)
Theorem v128_lane_order (value_bits : v128) (index : Index) (w : World) :
  v128_lanes_ok value_bits ->
  exists w0 w1 w2 w3,
    written_text (fst (call (OnV128ConstExpr value_bits) w))
    = ("OnV128ConstExpr(0x" ++ w0 ++ " 0x" ++ w1 ++ " 0x" ++ w2
       ++ " 0x" ++ w3 ++ ")" ++ nl)%string
    /\ written_text (fst (call (OnInitExprV128ConstExpr index value_bits) w))
      = ("OnInitExprV128ConstExpr(index: " ++ fmt_u index
         ++ " value: ( 0x" ++ w0 ++ " 0x" ++ w1 ++ " 0x" ++ w2
         ++ " 0x" ++ w3 ++ "))" ++ nl)%string
    /\ (String.length w0 = 8 /\ String.length w1 = 8
        /\ String.length w2 = 8 /\ String.length w3 = 8)%nat
    /\ parse_hex ("0x" ++ w0) = Some (v_0 value_bits)
    /\ parse_hex ("0x" ++ w1) = Some (v_1 value_bits)
    /\ parse_hex ("0x" ++ w2) = Some (v_2 value_bits)
    /\ parse_hex ("0x" ++ w3) = Some (v_3 value_bits).
Proof.
  intros (H0 & H1 & H2 & H3).
  destruct (fmt_08x_spec _ H0) as [L0 P0].
  destruct (fmt_08x_spec _ H1) as [L1 P1].
  destruct (fmt_08x_spec _ H2) as [L2 P2].
  destruct (fmt_08x_spec _ H3) as [L3 P3].
  exists (fmt_08x (v_0 value_bits)), (fmt_08x (v_1 value_bits)),
    (fmt_08x (v_2 value_bits)), (fmt_08x (v_3 value_bits)).
  destruct w as [[d st] rd].
  split; [line_text|]. split; [line_text|]. auto 10.
Qed.


(** ** Order of the effects *)

Lemma stream_calls_no_forward (es : list Effect) :
  forwards es = [] -> stream_calls es = es.
Proof.
  induction es as [|e es IH]; [reflexivity|].
  destruct e; cbn [forwards stream_calls]; intros H;
    first [discriminate H | now rewrite IH].
Qed.

(** The stream is written before the wrapped delegate is called: the
    forwarded call is the last effect of a method. *)
Lemma call_stream_first (c : Call) (w : World) :
  leave_ok c (self w) ->
  fst (call c w) = stream_calls (fst (call c w)) ++ [Forward c].
Proof.
  intros Hok. destruct (call_forwards c w Hok) as (pre & -> & Hpre).
  cbn [fst]. rewrite stream_calls_app, (stream_calls_no_forward pre Hpre).
  cbn [stream_calls]. now rewrite app_nil_r.
Qed.

Lemma Stream_output_stream_calls (es : list Effect) (out : string) :
  Stream_output (stream_calls es) out = Stream_output es out.
Proof.
  revert out. induction es as [|e es IH]; intros out; [reflexivity|].
  destruct e; cbn [stream_calls Stream_output]; rewrite ?IH; reflexivity.
Qed.

End Logging.

Arguments Done {Reader A} a w.
Arguments AssertFail {Reader A}.
Arguments self {Reader} w.
Arguments reader {Reader} w.
Arguments Build_World {Reader} self reader.

(** ** Independence of the wrapped delegate

    Two runs of the decorator, over two wrapped delegates that may
    return different results, are related step by step: the operations
    make the same calls on the stream and leave the same decorator
    state. *)

Section Independence.

Variable IsTypeIndex : Type_ -> bool.
Variable GetTypeName : Type_ -> string.
Variable GetKindName : ExternalKind -> string.
Variable GetRelocTypeName : RelocType -> string.
Variable GetSymbolTypeName : SymbolType -> string.
Variable Opcode_GetName : Opcode -> string.
Variable Opcode_GetCode : Opcode -> Z.
Variable fmt_g32 : Z -> string.
Variable fmt_g64 : Z -> string.
Variables Reader1 Reader2 : Type.
Variable reader1 : Call -> Reader1 -> Ret * Reader1.
Variable reader2 : Call -> Reader2 -> Ret * Reader2.

Local Abbreviation call1 :=
  (call IsTypeIndex GetTypeName GetKindName GetRelocTypeName
     GetSymbolTypeName Opcode_GetName Opcode_GetCode fmt_g32 fmt_g64
     Reader1 reader1).
Local Abbreviation call2 :=
  (call IsTypeIndex GetTypeName GetKindName GetRelocTypeName
     GetSymbolTypeName Opcode_GetName Opcode_GetCode fmt_g32 fmt_g64
     Reader2 reader2).
Local Abbreviation run1 :=
  (run IsTypeIndex GetTypeName GetKindName GetRelocTypeName
     GetSymbolTypeName Opcode_GetName Opcode_GetCode fmt_g32 fmt_g64
     Reader1 reader1).
Local Abbreviation run2 :=
  (run IsTypeIndex GetTypeName GetKindName GetRelocTypeName
     GetSymbolTypeName Opcode_GetName Opcode_GetCode fmt_g32 fmt_g64
     Reader2 reader2).

(** Two results agree: the same calls on the stream, and either both
    methods stopped at an assertion or both returned, with related values
    and the same decorator state. *)
Definition agree {A B : Type} (RV : A -> B -> Prop)
    (x : list Effect * Outcome Reader1 A) (y : list Effect * Outcome Reader2 B)
    : Prop :=
  stream_calls (fst x) = stream_calls (fst y)
  /\ match snd x, snd y with
     | Done a w1, Done b w2 => RV a b /\ self w1 = self w2
     | AssertFail, AssertFail => True
     | _, _ => False
     end.

Definition sim {A B : Type} (RV : A -> B -> Prop)
    (m1 : M Reader1 A) (m2 : M Reader2 B) : Prop :=
  forall w1 w2, self w1 = self w2 -> agree RV (m1 w1) (m2 w2).

Definition any {A B : Type} : A -> B -> Prop := fun _ _ => True.

Lemma sim_bind {A1 A2 B1 B2 : Type} (RA : A1 -> A2 -> Prop)
    (RB : B1 -> B2 -> Prop) m1 m2 (f1 : A1 -> M Reader1 B1)
    (f2 : A2 -> M Reader2 B2) :
  sim RA m1 m2 ->
  (forall a1 a2, RA a1 a2 -> sim RB (f1 a1) (f2 a2)) ->
  sim RB (bind Reader1 m1 f1) (bind Reader2 m2 f2).
Proof.
  intros Hm Hf w1 w2 Hw.
  destruct (Hm w1 w2 Hw) as [Hs Ho].
  destruct (m1 w1) as [l1 [a1 v1|]] eqn:E1, (m2 w2) as [l2 [a2 v2|]] eqn:E2;
    cbn [fst snd] in *; try contradiction.
  - destruct Ho as [Ha Hv].
    rewrite (bind_run Reader1 m1 f1 w1 l1 a1 v1 E1).
    rewrite (bind_run Reader2 m2 f2 w2 l2 a2 v2 E2).
    destruct (Hf a1 a2 Ha v1 v2 Hv) as [Hs' Ho'].
    split; [|exact Ho']. cbn [fst]. now rewrite !stream_calls_app, Hs, Hs'.
  - rewrite (bind_fail Reader1 m1 f1 w1 l1 E1).
    rewrite (bind_fail Reader2 m2 f2 w2 l2 E2).
    split; [exact Hs | exact I].
Qed.

Lemma sim_forward (c : Call) :
  sim any (forward Reader1 reader1 c) (forward Reader2 reader2 c).
Proof. intros w1 w2 Hw. split; [reflexivity|]. cbn. split; [exact I | exact Hw]. Qed.

Lemma sim_emit (e : Effect) : sim eq (emit Reader1 e) (emit Reader2 e).
Proof. intros w1 w2 Hw. split; [reflexivity|]. cbn. now split. Qed.

Lemma sim_set_state (s : StatePtr) :
  sim eq (set_state Reader1 s) (set_state Reader2 s).
Proof. intros w1 w2 Hw. split; [reflexivity|]. cbn. now rewrite Hw. Qed.

Lemma sim_LOGF (text : string) : sim eq (LOGF Reader1 text) (LOGF Reader2 text).
Proof.
  intros w1 w2 Hw. rewrite !LOGF_run, Hw. split; [reflexivity|]. cbn. now split.
Qed.

Lemma sim_LogType (type : Type_) :
  sim eq (LogType IsTypeIndex GetTypeName Reader1 type)
         (LogType IsTypeIndex GetTypeName Reader2 type).
Proof.
  intros w1 w2 Hw. rewrite !LogType_run. split; [reflexivity|]. cbn. now split.
Qed.

Lemma sim_LogTypes (types : list Type_) :
  sim eq (LogTypes IsTypeIndex GetTypeName Reader1 types)
         (LogTypes IsTypeIndex GetTypeName Reader2 types).
Proof.
  intros w1 w2 Hw. rewrite !LogTypes_run. split; [reflexivity|]. cbn. now split.
Qed.

Lemma sim_OnBrTableExpr_for (ds : list Index) :
  sim eq (OnBrTableExpr_for Reader1 ds) (OnBrTableExpr_for Reader2 ds).
Proof.
  intros w1 w2 Hw. rewrite !OnBrTableExpr_for_run.
  split; [reflexivity|]. cbn. now split.
Qed.

Lemma sim_SPrintLimits (limits : Limits) :
  sim eq (SPrintLimits Reader1 100 limits) (SPrintLimits Reader2 100 limits).
Proof.
  intros w1 w2 Hw. rewrite !SPrintLimits_run.
  split; [reflexivity|]. cbn. now split.
Qed.

Lemma sim_Indent : sim eq (Indent Reader1) (Indent Reader2).
Proof.
  intros w1 w2 Hw. rewrite !Indent_run. split; [reflexivity|].
  cbn. now rewrite Hw.
Qed.

Lemma sim_Dedent : sim eq (Dedent Reader1) (Dedent Reader2).
Proof.
  intros w1 w2 Hw. rewrite !Dedent_run, Hw. split; [reflexivity|].
  cbn [snd]. destruct (0 <=? _); [|exact I]. cbn. now rewrite Hw.
Qed.

(** Relates the two runs of a method, operation by operation. *)
Ltac sim_steps :=
  repeat first
    [ apply sim_forward
    | eapply sim_bind;
      [ first [ apply sim_LOGF | apply sim_LogTypes | apply sim_LogType
              | apply sim_OnBrTableExpr_for | apply sim_SPrintLimits
              | apply sim_Indent | apply sim_Dedent | apply sim_set_state
              | apply sim_emit ]
      | intros ? ? <- ] ].

Lemma sim_call (c : Call) : sim any (call1 c) (call2 c).
Proof.
  destruct c; cbn [call];
    repeat match goal with
           | |- context [IndexIndexName_desc ?n] => destruct (IndexIndexName_desc n)
           | |- context [IndexIndexBoolName_desc ?n] =>
               destruct (IndexIndexBoolName_desc n) as [[? ?] ?]
           end;
    sim_steps.
Qed.

Lemma sim_run (cs : list Call) : sim any (run1 cs) (run2 cs).
Proof.
  induction cs as [|c rest IH]; cbn [run].
  - intros w1 w2 Hw. split; [reflexivity|]. cbn. now split.
  - eapply sim_bind; [apply sim_call|]. intros r1 r2 _.
    eapply sim_bind; [apply IH|]. intros rs1 rs2 _.
    intros w1 w2 Hw. split; [reflexivity|]. cbn. now split.
Qed.

(** C10 -- The trace does not depend on what the wrapped delegate
    returns.  Over the same sequence of calls and from the same decorator
    state, two runs with any two wrapped delegates make the same calls on
    the stream, so the stream receives the same bytes; and within a
    method every write on the stream comes before the forwarded call,
    which is the method's last effect. *)
Theorem trace_independent_of_results (cs : list Call)
    (b : BinaryReaderLogging) (rd1 : Reader1) (rd2 : Reader2) :
  let t1 := fst (run1 cs {| self := b; reader := rd1 |}) in
  let t2 := fst (run2 cs {| self := b; reader := rd2 |}) in
  stream_calls t1 = stream_calls t2
  /\ (forall out, Stream_output t1 out = Stream_output t2 out)
  /\ (forall c w,
        leave_ok c (self w) ->
        fst (call1 c w) = stream_calls (fst (call1 c w)) ++ [Forward c]).
Proof.
  intros t1 t2.
  assert (Hs : stream_calls t1 = stream_calls t2).
  { destruct (sim_run cs {| self := b; reader := rd1 |}
                {| self := b; reader := rd2 |} eq_refl) as [H _].
    exact H. }
  split; [exact Hs|]. split.
  - intros out.
    rewrite <- (Stream_output_stream_calls t1), <- (Stream_output_stream_calls t2).
    now rewrite Hs.
  - intros c w Hok. now apply call_stream_first.
Qed.

End Independence.

(** * A concrete session

    Name tables in the style of wabt's, a wrapped delegate that accepts
    every call and one that rejects every call, and the states of a
    session at a given depth. *)

Definition sample_IsTypeIndex (type : Type_) : bool := 0 <=? type.

Definition sample_GetTypeName (type : Type_) : string :=
  if type =? -1 then "i32"
  else if type =? -2 then "i64"
  else if type =? -3 then "f32"
  else if type =? -4 then "f64"
  else "????".

Definition sample_name (what : string) (n : Z) : string := what.

Definition accept_all (c : Call) (rd : unit) : Ret * unit :=
  (RResult ResultOk, tt).

Definition reject_all (c : Call) (rd : unit) : Ret * unit :=
  (RResult ResultError, tt).

Definition sample_call (reader_ : Call -> unit -> Ret * unit) : Call -> M unit Ret :=
  call sample_IsTypeIndex sample_GetTypeName (sample_name "func")
    (sample_name "R_WASM_FUNCTION_INDEX_LEB") (sample_name "func")
    (sample_name "i32.add") (fun opcode => opcode)
    (sample_name "1") (sample_name "1") unit reader_.

Definition sample_run (reader_ : Call -> unit -> Ret * unit)
  : list Call -> M unit (list Ret) :=
  run sample_IsTypeIndex sample_GetTypeName (sample_name "func")
    (sample_name "R_WASM_FUNCTION_INDEX_LEB") (sample_name "func")
    (sample_name "i32.add") (fun opcode => opcode)
    (sample_name "1") (sample_name "1") unit reader_.

Definition at_depth (d : Z) : World unit :=
  {| self := {| indent_ := d; state := None |}; reader := tt |}.

Definition session_start : World unit :=
  {| self := new_BinaryReaderLogging; reader := tt |}.

(** The scenario of the specification: a module with a type section that
    declares one signature. *)
Definition scenario : list Call :=
  [ BeginModule 1;
    DEFINE_BEGIN BeginTypeSection 12;
    DEFINE_INDEX OnTypeCount 1;
    OnType 0 [] [-1];
    DEFINE_END EndTypeSection;
    DEFINE_END EndModule ].

Definition distinct_lanes : v128 :=
  {| v_0 := 286331153; v_1 := 572662306; v_2 := 858993459; v_3 := 4294967295 |}.

(** The trace of the scenario, byte for byte, and the calls the wrapped
    delegate receives. *)
Example scenario_trace :
  Stream_output (fst (sample_run accept_all scenario session_start)) ""
  = Some ("BeginModule(version: 1)" ++ nl
          ++ "  BeginTypeSection(12)" ++ nl
          ++ "    OnTypeCount(1)" ++ nl
          ++ "    OnType(index: 0, params: [], results: [i32])" ++ nl
          ++ "  EndTypeSection" ++ nl
          ++ "EndModule" ++ nl)%string
  /\ forwards (fst (sample_run accept_all scenario session_start)) = scenario.
Proof. split; vm_compute; reflexivity. Qed.

Example limits_formatting :
  Limits_text {| initial := 1; max := 0; has_max := false |} = "initial: 1"
  /\ Limits_text {| initial := 1; max := 4; has_max := true |}
     = "initial: 1, max: 4".
Proof. split; reflexivity. Qed.

(** Seventy-two begin calls in a row bring the depth to 144, past the
    padding buffer; the next line is then prefixed by a chunk of 142
    bytes and a write of 144 bytes. *)
Example depth_144_reached :
  depth_after sample_IsTypeIndex sample_GetTypeName (sample_name "func")
    (sample_name "R_WASM_FUNCTION_INDEX_LEB") (sample_name "func")
    (sample_name "i32.add") (fun opcode => opcode)
    (sample_name "1") (sample_name "1") unit accept_all
    (BeginCustomSection 0 "name") (at_depth 142)
  = Some 144
  /\ match snd (sample_run accept_all
                  (repeat (BeginCustomSection 0 "name") 72) session_start) with
     | Done _ w => indent_ (self w) = 144
     | AssertFail => False
     end
  /\ stream_calls (fst (sample_call accept_all (DEFINE0 OnNopExpr) (at_depth 144)))
     = [WriteData s_indent 142; WriteData s_indent 144;
        Writef ("OnNopExpr" ++ nl)].
Proof.
  split; [vm_compute; reflexivity|].
  split; vm_compute; reflexivity.
Qed.

(** The line of the float constant 1.0f. *)
Example f32_line_of_one :
  written_text (fst (sample_call accept_all (OnF32ConstExpr 1065353216)
                       session_start))
  = ("OnF32ConstExpr(1 (0x043f800000))" ++ nl)%string.
Proof. vm_compute. reflexivity. Qed.

(** ** Witnesses *)

(** Forwarding at [EndModule], one step deep, over a delegate that rejects. *)
Lemma forwarding_transparent_witness :
  leave_ok (DEFINE_END EndModule) (self (at_depth 2))
  /\ forwards (fst (sample_call reject_all (DEFINE_END EndModule) (at_depth 2)))
     = [DEFINE_END EndModule]
  /\ exists w',
       snd (sample_call reject_all (DEFINE_END EndModule) (at_depth 2))
       = Done (RResult ResultError) w'
       /\ reader w' = tt.
Proof.
  split; [cbn; unfold INDENT_SIZE; lia|].
  apply (forwarding_transparent sample_IsTypeIndex sample_GetTypeName
           (sample_name "func") (sample_name "R_WASM_FUNCTION_INDEX_LEB")
           (sample_name "func") (sample_name "i32.add") (fun opcode => opcode)
           (sample_name "1") (sample_name "1") unit reject_all
           (DEFINE_END EndModule) (at_depth 2)).
  cbn. unfold INDENT_SIZE. lia.
Defined.

(** The line of an import at the start of a session. *)
Lemma one_line_or_silent_witness :
  leave_ok (OnImport 0 "env" "memory") (self session_start)
  /\ forwards (fst (sample_call accept_all (OnImport 0 "env" "memory") session_start))
     = [OnImport 0 "env" "memory"]
  /\ (silent (OnImport 0 "env" "memory") = true ->
      stream_calls (fst (sample_call accept_all (OnImport 0 "env" "memory") session_start))
      = [])
  /\ (silent (OnImport 0 "env" "memory") = false ->
      exists texts body,
        stream_calls (fst (sample_call accept_all (OnImport 0 "env" "memory") session_start))
        = WriteIndent_effects 0 ++ map Writef texts
        /\ join texts = (body ++ nl)%string
        /\ count_nl body = O).
Proof.
  split; [exact I|].
  apply (one_line_or_silent sample_IsTypeIndex sample_GetTypeName
           (sample_name "func") (sample_name "R_WASM_FUNCTION_INDEX_LEB")
           (sample_name "func") (sample_name "i32.add") (fun opcode => opcode)
           (sample_name "1") (sample_name "1") unit accept_all
           (OnImport 0 "env" "memory") session_start).
  exact I.
Defined.

(** The scenario is well formed and brings the depth back to zero. *)
Lemma indentation_balance_witness :
  well_formed scenario = true
  /\ 0 <= indent_ (self session_start)
  /\ exists effs rs w',
       sample_run accept_all scenario session_start = (effs, Done rs w')
       /\ indent_ (self w') = indent_ (self session_start)
       /\ (self session_start = new_BinaryReaderLogging -> indent_ (self w') = 0).
Proof.
  split; [reflexivity|]. split; [cbn; lia|].
  apply (indentation_balance sample_IsTypeIndex sample_GetTypeName
           (sample_name "func") (sample_name "R_WASM_FUNCTION_INDEX_LEB")
           (sample_name "func") (sample_name "i32.add") (fun opcode => opcode)
           (sample_name "1") (sample_name "1") unit accept_all
           scenario session_start).
  - reflexivity.
  - cbn. lia.
Defined.

(** The end of the type section two steps deep, and the end of a global. *)
Lemma end_call_line_witness :
  INDENT_SIZE <= indent_ (self (at_depth 4))
  /\ sample_call accept_all (DEFINE_END EndTypeSection) (at_depth 4)
     = (WriteIndent_effects (4 - INDENT_SIZE)
        ++ [Writef ("EndTypeSection" ++ nl); Forward (DEFINE_END EndTypeSection)],
        Done (RResult ResultOk) (at_depth (4 - INDENT_SIZE)))
  /\ sample_call accept_all (DEFINE_INDEX EndGlobal 0) (at_depth 4)
     = (WriteIndent_effects 4
        ++ [Writef ("EndGlobal(" ++ fmt_u 0 ++ ")" ++ nl);
            Forward (DEFINE_INDEX EndGlobal 0)],
        Done (RResult ResultOk) (at_depth 4)).
Proof.
  pose proof (end_call_line sample_IsTypeIndex sample_GetTypeName
                (sample_name "func") (sample_name "R_WASM_FUNCTION_INDEX_LEB")
                (sample_name "func") (sample_name "i32.add") (fun opcode => opcode)
                (sample_name "1") (sample_name "1") unit accept_all (at_depth 4))
    as [Hend Hindex].
  assert (H : INDENT_SIZE <= indent_ (self (at_depth 4)))
    by (cbn; unfold INDENT_SIZE; lia).
  split; [exact H|]. split.
  - exact (Hend EndTypeSection H).
  - apply (Hindex EndGlobal 0). discriminate.
Defined.

(** A vector of four distinct lanes. *)
Lemma v128_lane_order_witness :
  v128_lanes_ok distinct_lanes
  /\ exists w0 w1 w2 w3,
       written_text (fst (sample_call accept_all (OnV128ConstExpr distinct_lanes)
                            session_start))
       = ("OnV128ConstExpr(0x" ++ w0 ++ " 0x" ++ w1 ++ " 0x" ++ w2
          ++ " 0x" ++ w3 ++ ")" ++ nl)%string
       /\ written_text (fst (sample_call accept_all
                              (OnInitExprV128ConstExpr 7 distinct_lanes)
                              session_start))
         = ("OnInitExprV128ConstExpr(index: " ++ fmt_u 7
            ++ " value: ( 0x" ++ w0 ++ " 0x" ++ w1 ++ " 0x" ++ w2
            ++ " 0x" ++ w3 ++ "))" ++ nl)%string
       /\ (String.length w0 = 8 /\ String.length w1 = 8
           /\ String.length w2 = 8 /\ String.length w3 = 8)%nat
       /\ parse_hex ("0x" ++ w0) = Some 286331153
       /\ parse_hex ("0x" ++ w1) = Some 572662306
       /\ parse_hex ("0x" ++ w2) = Some 858993459
       /\ parse_hex ("0x" ++ w3) = Some 4294967295.
Proof.
  assert (H : v128_lanes_ok distinct_lanes)
    by (unfold v128_lanes_ok, distinct_lanes; cbn [v_0 v_1 v_2 v_3];
        change (2 ^ 32) with 4294967296; lia).
  split; [exact H|].
  exact (v128_lane_order sample_IsTypeIndex sample_GetTypeName
           (sample_name "func") (sample_name "R_WASM_FUNCTION_INDEX_LEB")
           (sample_name "func") (sample_name "i32.add") (fun opcode => opcode)
           (sample_name "1") (sample_name "1") unit accept_all
           distinct_lanes 7 session_start H).
Defined.

(** [Dedent] two steps deep, and at depth zero. *)
Lemma Dedent_assertion_witness :
  Dedent unit (at_depth 4) = ([], Done tt (at_depth 2))
  /\ Dedent unit (at_depth 0) = ([], AssertFail).
Proof.
  split.
  - exact (proj1 (Dedent_assertion unit (at_depth 4))).
  - apply (proj2 (Dedent_assertion unit (at_depth 0))). reflexivity.
Defined.

(** Entering and leaving the code section. *)
Lemma depth_steps_witness :
  depth_after sample_IsTypeIndex sample_GetTypeName (sample_name "func")
    (sample_name "R_WASM_FUNCTION_INDEX_LEB") (sample_name "func")
    (sample_name "i32.add") (fun opcode => opcode)
    (sample_name "1") (sample_name "1") unit accept_all
    (DEFINE_BEGIN BeginCodeSection 40) (at_depth 2)
  = Some 4
  /\ depth_after sample_IsTypeIndex sample_GetTypeName (sample_name "func")
       (sample_name "R_WASM_FUNCTION_INDEX_LEB") (sample_name "func")
       (sample_name "i32.add") (fun opcode => opcode)
       (sample_name "1") (sample_name "1") unit accept_all
       (DEFINE_END EndCodeSection) (at_depth 4)
     = Some 2.
Proof.
  pose proof (depth_steps sample_IsTypeIndex sample_GetTypeName
                (sample_name "func") (sample_name "R_WASM_FUNCTION_INDEX_LEB")
                (sample_name "func") (sample_name "i32.add") (fun opcode => opcode)
                (sample_name "1") (sample_name "1") unit accept_all (at_depth 2))
    as (_ & _ & _ & Hbegin & _).
  pose proof (depth_steps sample_IsTypeIndex sample_GetTypeName
                (sample_name "func") (sample_name "R_WASM_FUNCTION_INDEX_LEB")
                (sample_name "func") (sample_name "i32.add") (fun opcode => opcode)
                (sample_name "1") (sample_name "1") unit accept_all (at_depth 4))
    as (_ & _ & _ & _ & Hend & _).
  split.
  - exact (Hbegin BeginCodeSection 40).
  - apply (Hend EndCodeSection). cbn. unfold INDENT_SIZE. lia.
Defined.

(** The scenario over a delegate that accepts and one that rejects. *)
Lemma trace_independent_of_results_witness :
  stream_calls (fst (sample_run accept_all scenario session_start))
  = stream_calls (fst (sample_run reject_all scenario session_start))
  /\ (forall out,
        Stream_output (fst (sample_run accept_all scenario session_start)) out
        = Stream_output (fst (sample_run reject_all scenario session_start)) out)
  /\ fst (sample_call accept_all (DEFINE_END EndModule) (at_depth 2))
     = stream_calls (fst (sample_call accept_all (DEFINE_END EndModule) (at_depth 2)))
       ++ [Forward (DEFINE_END EndModule)].
Proof.
  destruct (trace_independent_of_results sample_IsTypeIndex sample_GetTypeName
              (sample_name "func") (sample_name "R_WASM_FUNCTION_INDEX_LEB")
              (sample_name "func") (sample_name "i32.add") (fun opcode => opcode)
              (sample_name "1") (sample_name "1") unit unit accept_all reject_all
              scenario new_BinaryReaderLogging tt tt) as (H1 & H2 & H3).
  split; [exact H1|]. split; [exact H2|].
  apply (H3 (DEFINE_END EndModule) (at_depth 2)).
  cbn. unfold INDENT_SIZE. lia.
Defined.

(** The line of a vector with four distinct lanes, as written. *)
Example distinct_lanes_line :
  written_text (fst (sample_call accept_all (OnV128ConstExpr distinct_lanes)
                       session_start))
  = ("OnV128ConstExpr(0x11111111 0x22222222 0x33333333 0xffffffff)" ++ nl)%string.
Proof. vm_compute. reflexivity. Qed.

(** ** Counterexamples *)

(** C2 as stated: [BeginSection] is neither a raw-opcode call nor the
    state-snapshot call, and writes no line; the same holds for [OnError].
    A name that holds a newline is written as it is, so the line of its
    call breaks in two. *)
Lemma BeginSection_writes_no_line :
  spec_silent (BeginSection 0 1 12) = false
  /\ stream_calls (fst (sample_call accept_all (BeginSection 0 1 12) session_start))
     = []
  /\ forwards (fst (sample_call accept_all (BeginSection 0 1 12) session_start))
     = [BeginSection 0 1 12]
  /\ spec_silent (OnError "bad magic value") = false
  /\ stream_calls (fst (sample_call accept_all (OnError "bad magic value")
                         session_start))
     = []
  /\ count_nl (written_text
                 (fst (sample_call accept_all (OnModuleName ("a" ++ nl ++ "b"))
                         session_start)))
     = 2%nat.
Proof. repeat split. Qed.

(** C6 as stated: entering a function body or a global leaves the depth
    where it is. *)
Lemma function_body_and_global_keep_depth :
  depth_after sample_IsTypeIndex sample_GetTypeName (sample_name "func")
    (sample_name "R_WASM_FUNCTION_INDEX_LEB") (sample_name "func")
    (sample_name "i32.add") (fun opcode => opcode)
    (sample_name "1") (sample_name "1") unit accept_all
    (BeginFunctionBody 0 10) session_start
  = Some 0
  /\ depth_after sample_IsTypeIndex sample_GetTypeName (sample_name "func")
       (sample_name "R_WASM_FUNCTION_INDEX_LEB") (sample_name "func")
       (sample_name "i32.add") (fun opcode => opcode)
       (sample_name "1") (sample_name "1") unit accept_all
       (BeginGlobal 0 (-1) false) session_start
     = Some 0
  /\ Some 0 <> Some (0 + INDENT_SIZE).
Proof. split; [|split]; [vm_compute; reflexivity ..|discriminate]. Qed.

(** C7 as stated: the end call of a function body carries its index in
    the line and does not lower the depth. *)
Lemma EndFunctionBody_line_has_argument :
  sample_call accept_all (DEFINE_INDEX EndFunctionBody 3) (at_depth 4)
  = ([WriteData s_indent 4; Writef ("EndFunctionBody(3)" ++ nl);
      Forward (DEFINE_INDEX EndFunctionBody 3)],
     Done (RResult ResultOk) (at_depth 4))
  /\ ("EndFunctionBody(3)" ++ nl <> "EndFunctionBody" ++ nl)%string.
Proof. split; [vm_compute; reflexivity | discriminate]. Qed.

(** C1 as stated: [EndModule] on a decorator that has entered nothing
    stops at the assertion of [Dedent]; the wrapped delegate, which would
    accept the call, is not called, and no result is returned. *)
Lemma EndModule_at_depth_zero_not_forwarded :
  indent_ (self session_start) = 0
  /\ accept_all (DEFINE_END EndModule) (reader session_start)
     = (RResult ResultOk, tt)
  /\ sample_call accept_all (DEFINE_END EndModule) session_start
     = ([], AssertFail)
  /\ forwards (fst (sample_call accept_all (DEFINE_END EndModule) session_start))
     <> [DEFINE_END EndModule].
Proof.
  split; [reflexivity|]. split; [reflexivity|].
  split; [vm_compute; reflexivity | vm_compute; discriminate].
Qed.

(** * Further properties of the decorator

    Sequences of calls, the loops that write lists, the conversions of
    integer fields and the bounds of the buffers. *)

Section Further.

Variable IsTypeIndex : Type_ -> bool.
Variable GetTypeName : Type_ -> string.
Variable GetKindName : ExternalKind -> string.
Variable GetRelocTypeName : RelocType -> string.
Variable GetSymbolTypeName : SymbolType -> string.
Variable Opcode_GetName : Opcode -> string.
Variable Opcode_GetCode : Opcode -> Z.
Variable fmt_g32 : Z -> string.
Variable fmt_g64 : Z -> string.
Variable Reader : Type.
Variable reader_ : Call -> Reader -> Ret * Reader.

Local Abbreviation call_ :=
  (call IsTypeIndex GetTypeName GetKindName GetRelocTypeName
     GetSymbolTypeName Opcode_GetName Opcode_GetCode fmt_g32 fmt_g64
     Reader reader_).
Local Abbreviation run_ :=
  (run IsTypeIndex GetTypeName GetKindName GetRelocTypeName
     GetSymbolTypeName Opcode_GetName Opcode_GetCode fmt_g32 fmt_g64
     Reader reader_).
Local Abbreviation ext_newlines_ :=
  (ext_newlines IsTypeIndex GetTypeName GetKindName GetRelocTypeName
     GetSymbolTypeName Opcode_GetName fmt_g32 fmt_g64).
Local Abbreviation LogType_text_ := (LogType_text IsTypeIndex GetTypeName).

(** ** Sequences of calls *)

(** Whether the assertion of [Dedent] holds when [c] is called at depth
    [d]. *)
Definition leave_okb (c : Call) (d : Z) : bool :=
  match c with
  | DEFINE_END _ => INDENT_SIZE <=? d
  | _ => true
  end.

(** The depth after a sequence of calls that starts at depth [d]; [None]
    when an end call comes at a depth below one step. *)
Fixpoint track (d : Z) (cs : list Call) : option Z :=
  match cs with
  | [] => Some d
  | c :: rest => if leave_okb c d then track (d + delta c) rest else None
  end.

(** The calls of a sequence that come before the first end call below
    one step of depth. *)
Fixpoint served (d : Z) (cs : list Call) : list Call :=
  match cs with
  | [] => []
  | c :: rest => if leave_okb c d then c :: served (d + delta c) rest else []
  end.

(** The wrapped delegate driven by the decoder directly. *)
Fixpoint direct (cs : list Call) (rd : Reader) : list Ret * Reader :=
  match cs with
  | [] => ([], rd)
  | c :: rest =>
      (fst (reader_ c rd) :: fst (direct rest (snd (reader_ c rd))),
       snd (direct rest (snd (reader_ c rd))))
  end.

(** The newlines a call writes. *)
Definition lines_of (c : Call) : nat :=
  if silent c then O else S (ext_newlines_ c).

Lemma leave_okb_ok (c : Call) (b : BinaryReaderLogging) :
  leave_okb c (indent_ b) = true -> leave_ok c b.
Proof.
  destruct c; cbn [leave_okb leave_ok]; intros H; try exact I.
  now apply Z.leb_le.
Qed.

Lemma leave_okb_underflow (c : Call) (d : Z) :
  leave_okb c d = false -> exists name, c = DEFINE_END name /\ d < INDENT_SIZE.
Proof.
  destruct c; cbn [leave_okb]; intros H; try discriminate H.
  exists name. split; [reflexivity|]. now apply Z.leb_gt.
Qed.

Lemma run_first_fails (c : Call) (rest : list Call) (w : World Reader) effs :
  call_ c w = (effs, AssertFail) -> run_ (c :: rest) w = (effs, AssertFail).
Proof. intros H. cbn [run]. now apply bind_fail. Qed.

Lemma run_underflow (c : Call) (rest : list Call) (w : World Reader) :
  leave_okb c (indent_ (self w)) = false ->
  run_ (c :: rest) w = ([], AssertFail).
Proof.
  intros Hok. destruct (leave_okb_underflow _ _ Hok) as (name & -> & Hlt).
  apply run_first_fails. now apply call_underflow.
Qed.

Lemma run_step (c : Call) (rest : list Call) (w : World Reader) :
  leave_okb c (indent_ (self w)) = true ->
  exists pre w1,
    forwards pre = []
    /\ call_ c w = (pre ++ [Forward c], Done (fst (reader_ c (reader w))) w1)
    /\ indent_ (self w1) = indent_ (self w) + delta c
    /\ reader w1 = snd (reader_ c (reader w))
    /\ run_ (c :: rest) w
       = ((pre ++ [Forward c]) ++ fst (run_ rest w1),
          match snd (run_ rest w1) with
          | Done rs w2 => Done (fst (reader_ c (reader w)) :: rs) w2
          | AssertFail => AssertFail
          end).
Proof.
  intros Hok. apply leave_okb_ok in Hok.
  destruct (call_forwards IsTypeIndex GetTypeName GetKindName GetRelocTypeName
              GetSymbolTypeName Opcode_GetName Opcode_GetCode fmt_g32 fmt_g64
              Reader reader_ c w Hok) as (pre & Hrun & Hpre).
  eexists pre, _. split; [exact Hpre|]. split; [exact Hrun|].
  split; [reflexivity|]. split; [reflexivity|].
  exact (run_cons IsTypeIndex GetTypeName GetKindName GetRelocTypeName
           GetSymbolTypeName Opcode_GetName Opcode_GetCode fmt_g32 fmt_g64
           Reader reader_ c rest w _ _ _ Hrun).
Qed.

Lemma served_all (cs : list Call) :
  forall d d', track d cs = Some d' -> served d cs = cs.
Proof.
  induction cs as [|c rest IH]; intros d d' H; [reflexivity|].
  cbn [track served] in *. destruct (leave_okb c d); [|discriminate H].
  f_equal. eauto.
Qed.

Lemma served_short (cs : list Call) :
  forall d, track d cs = None -> (List.length (served d cs) < List.length cs)%nat.
Proof.
  induction cs as [|c rest IH]; intros d H; [discriminate H|].
  cbn [track served] in *. destruct (leave_okb c d); cbn [List.length].
  - specialize (IH _ H). lia.
  - lia.
Qed.

Lemma run_forwards (cs : list Call) :
  forall w : World Reader,
    forwards (fst (run_ cs w)) = served (indent_ (self w)) cs.
Proof.
  induction cs as [|c rest IH]; intros w; [reflexivity|].
  cbn [served]. destruct (leave_okb c (indent_ (self w))) eqn:Hok.
  - destruct (run_step c rest w Hok) as (pre & w1 & Hpre & _ & Hd & _ & ->).
    cbn [fst]. rewrite !forwards_app, Hpre, IH, Hd. reflexivity.
  - now rewrite run_underflow.
Qed.

(** A sequence in which no end call comes below one step of depth runs
    through: every call is forwarded, in order; the results and the final
    state of the wrapped delegate are those it would have had without the
    decorator; and the final depth is the initial one plus the steps of
    the calls. *)
Theorem run_through (cs : list Call) (w : World Reader) (d' : Z) :
  track (indent_ (self w)) cs = Some d' ->
  exists effs w',
    run_ cs w = (effs, Done (fst (direct cs (reader w))) w')
    /\ forwards effs = cs
    /\ reader w' = snd (direct cs (reader w))
    /\ indent_ (self w') = d'.
Proof.
  revert w d'. induction cs as [|c rest IH]; intros w d' H.
  - injection H as <-. exists [], w. repeat split.
  - cbn [track] in H.
    destruct (leave_okb c (indent_ (self w))) eqn:Hok; [|discriminate H].
    destruct (run_step c rest w Hok) as (pre & w1 & Hpre & _ & Hd & Hrd & Hrun).
    rewrite <- Hd in H.
    destruct (IH w1 d' H) as (effs & w' & Hrest & Hfw & Hrd' & Hd').
    rewrite Hrun, Hrest. cbn [fst snd direct].
    eexists _, w'. split; [rewrite Hrd; reflexivity|].
    split; [|split; [rewrite Hrd'; now rewrite Hrd | exact Hd']].
    rewrite !forwards_app, Hpre, Hfw. reflexivity.
Qed.

(** A sequence with an end call below one step of depth stops at that
    call's assertion: the calls before it, and only those, have been
    forwarded. *)
Theorem run_stops (cs : list Call) (w : World Reader) :
  track (indent_ (self w)) cs = None ->
  snd (run_ cs w) = AssertFail
  /\ forwards (fst (run_ cs w)) = served (indent_ (self w)) cs
  /\ (List.length (served (indent_ (self w)) cs) < List.length cs)%nat.
Proof.
  intros H. split; [|split; [apply run_forwards | now apply served_short]].
  revert w H. induction cs as [|c rest IH]; intros w H; [discriminate H|].
  cbn [track] in H. destruct (leave_okb c (indent_ (self w))) eqn:Hok.
  - destruct (run_step c rest w Hok) as (pre & w1 & _ & _ & Hd & _ & ->).
    rewrite <- Hd in H. cbn [snd]. now rewrite (IH w1 H).
  - now rewrite run_underflow.
Qed.

Lemma delta_even (c : Call) : Z.even (delta c) = true.
Proof. now destruct c. Qed.

Lemma track_invariant (cs : list Call) :
  forall d d',
    track d cs = Some d' -> 0 <= d -> Z.even d = true ->
    0 <= d' /\ Z.even d' = true.
Proof.
  induction cs as [|c rest IH]; intros d d' H Hd He.
  - injection H as <-. now split.
  - cbn [track] in H. destruct (leave_okb c d) eqn:Hok; [|discriminate H].
    apply (IH _ _ H).
    + destruct c; cbn [delta leave_okb] in *; unfold INDENT_SIZE in *;
        try apply Z.leb_le in Hok; lia.
    + rewrite Z.even_add, He, delta_even. reflexivity.
Qed.

Lemma run_outcome (cs : list Call) :
  forall w : World Reader,
    match snd (run_ cs w) with
    | Done _ w' => track (indent_ (self w)) cs = Some (indent_ (self w'))
    | AssertFail => track (indent_ (self w)) cs = None
    end.
Proof.
  induction cs as [|c rest IH]; intros w; [reflexivity|].
  cbn [track]. destruct (leave_okb c (indent_ (self w))) eqn:Hok.
  - destruct (run_step c rest w Hok) as (pre & w1 & _ & _ & Hd & _ & ->).
    cbn [snd]. specialize (IH w1). rewrite Hd in IH.
    now destruct (snd (run_ rest w1)).
  - now rewrite run_underflow.
Qed.

(** From a depth that is a non-negative multiple of the step, a
    sequence of calls ends at a depth that is again a non-negative
    multiple of the step, or stops at the assertion of one of its end
    calls: a sequence without such a call always runs through. *)
Theorem depth_invariant (cs : list Call) (w : World Reader) :
  0 <= indent_ (self w) ->
  Z.even (indent_ (self w)) = true ->
  match snd (run_ cs w) with
  | Done _ w' => 0 <= indent_ (self w') /\ Z.even (indent_ (self w')) = true
  | AssertFail => exists name, In (DEFINE_END name) cs
  end.
Proof.
  intros Hd He. pose proof (run_outcome cs w) as H.
  destruct (snd (run_ cs w)) as [rs w'|].
  - exact (track_invariant cs _ _ H Hd He).
  - clear Hd He. revert H. generalize (indent_ (self w)).
    induction cs as [|c rest IH]; intros d H; [discriminate H|].
    cbn [track] in H. destruct (leave_okb c d) eqn:Hok.
    + destruct (IH _ H) as (name & Hin). exists name. now right.
    + destruct (leave_okb_underflow _ _ Hok) as (name & -> & Hlt).
      exists name. now left.
Qed.

Lemma written_text_stream_calls (es : list Effect) :
  written_text (stream_calls es) = written_text es.
Proof.
  induction es as [|e es IH]; [reflexivity|].
  destruct e; cbn [stream_calls written_text]; now rewrite ?IH.
Qed.

Lemma call_newlines (c : Call) (w : World Reader) :
  leave_okb c (indent_ (self w)) = true ->
  count_nl (written_text (fst (call_ c w))) = lines_of c.
Proof.
  intros Hok. apply leave_okb_ok in Hok. unfold lines_of.
  rewrite <- written_text_stream_calls.
  destruct (silent c) eqn:Hs.
  - now rewrite call_silent.
  - destruct (call_line IsTypeIndex GetTypeName GetKindName GetRelocTypeName
                GetSymbolTypeName Opcode_GetName Opcode_GetCode fmt_g32 fmt_g64
                Reader reader_ c w Hok Hs) as (texts & body & -> & Hj & Hn).
    rewrite written_text_app, written_text_WriteIndent_effects,
      written_text_map_Writef, Hj.
    cbn [append]. rewrite count_nl_app, Hn. cbn. lia.
Qed.

(** The trace of a sequence holds one newline for each rendered call
    that was reached, and those of the names the calls carry. *)
Theorem run_newlines (cs : list Call) (w : World Reader) :
  count_nl (written_text (fst (run_ cs w)))
  = list_sum (map lines_of (served (indent_ (self w)) cs)).
Proof.
  revert w. induction cs as [|c rest IH]; intros w; [reflexivity|].
  cbn [served]. destruct (leave_okb c (indent_ (self w))) eqn:Hok.
  - pose proof (call_newlines c w Hok) as Hc.
    destruct (run_step c rest w Hok) as (pre & w1 & _ & Hcall & Hd & _ & ->).
    rewrite Hcall in Hc. cbn [fst] in *.
    rewrite written_text_app, count_nl_app, Hc, IH, Hd. reflexivity.
  - now rewrite run_underflow.
Qed.

(** ** The loops that write lists *)

Lemma join_LogTypes_for_texts (types : list Type_) :
  join (LogTypes_for_texts IsTypeIndex GetTypeName types)
  = String.concat ", " (map LogType_text_ types).
Proof.
  induction types as [|t rest IH]; [reflexivity|].
  change (LogTypes_for_texts IsTypeIndex GetTypeName (t :: rest))
    with (LogType_text_ t
          :: (match rest with [] => [] | _ :: _ => [", "] end)
          ++ LogTypes_for_texts IsTypeIndex GetTypeName rest).
  rewrite join_cons, join_app, IH.
  destruct rest as [|t' rest'].
  - cbn. now rewrite append_nil_r.
  - cbn [map String.concat join fold_right]. now rewrite append_nil_r.
Qed.

Lemma join_OnBrTableExpr_for_texts (ds : list Index) :
  join (OnBrTableExpr_for_texts ds) = String.concat ", " (map fmt_u ds).
Proof.
  induction ds as [|t rest IH]; [reflexivity|].
  change (OnBrTableExpr_for_texts (t :: rest))
    with (fmt_u t
          :: (match rest with [] => [] | _ :: _ => [", "] end)
          ++ OnBrTableExpr_for_texts rest).
  rewrite join_cons, join_app, IH.
  destruct rest as [|t' rest'].
  - cbn. now rewrite append_nil_r.
  - cbn [map String.concat join fold_right]. now rewrite append_nil_r.
Qed.

(** [LogTypes] writes the types between brackets, separated by a comma
    and a space, with no separator after the last and nothing between the
    brackets for an empty list; it writes no indent and leaves the
    decorator as it is. *)
Theorem LogTypes_bracketed (types : list Type_) (w : World Reader) :
  snd (LogTypes IsTypeIndex GetTypeName Reader types w) = Done tt w
  /\ stream_calls (fst (LogTypes IsTypeIndex GetTypeName Reader types w))
     = fst (LogTypes IsTypeIndex GetTypeName Reader types w)
  /\ requested_bytes (fst (LogTypes IsTypeIndex GetTypeName Reader types w)) = 0
  /\ written_text (fst (LogTypes IsTypeIndex GetTypeName Reader types w))
     = ("[" ++ String.concat ", " (map LogType_text_ types) ++ "]")%string.
Proof.
  rewrite LogTypes_run. cbn [fst snd].
  split; [reflexivity|]. split; [apply stream_calls_map_Writef|]. split.
  - generalize (LogTypes_texts IsTypeIndex GetTypeName types).
    induction l as [|t l IH]; [reflexivity | exact IH].
  - rewrite written_text_map_Writef. unfold LogTypes_texts.
    rewrite join_cons, join_app, join_LogTypes_for_texts.
    cbn [join fold_right]. reflexivity.
Qed.

Ltac run_one :=
  first
    [ apply LOGF_run | apply LogTypes_run | apply LogType_run
    | apply OnBrTableExpr_for_run | apply SPrintLimits_run
    | apply Indent_run | apply Dedent_ok; assumption
    | reflexivity ].

Ltac run_call :=
  cbn [call IndexIndexName_desc IndexIndexBoolName_desc];
  repeat (erewrite bind_run by run_one; cbv beta);
  unfold forward, set_state, with_indent;
  cbn [fst snd self reader indent_ state];
  rewrite ?app_nil_l, ?app_assoc.

Ltac line_text :=
  run_call; cbn [fst];
  rewrite ?written_text_app, ?written_text_WriteIndent_effects,
    ?written_text_map_Writef;
  cbn [written_text]; rewrite ?append_nil_r.

(** The line of [OnType]: the index, then the parameter types and the
    result types, each as a bracketed list. *)
Theorem OnType_line (index : Index) (param_types result_types : list Type_)
    (w : World Reader) :
  written_text (fst (call_ (OnType index param_types result_types) w))
  = ("OnType(index: " ++ fmt_u index
     ++ ", params: [" ++ String.concat ", " (map LogType_text_ param_types)
     ++ "], results: [" ++ String.concat ", " (map LogType_text_ result_types)
     ++ "])" ++ nl)%string.
Proof.
  destruct w as [[d st] rd]. line_text.
  unfold LogTypes_texts.
  rewrite !join_cons, !join_app, !join_LogTypes_for_texts.
  cbn [join fold_right]. rewrite !append_assoc. cbn [append]. reflexivity.
Qed.

(** The line of [OnBrTableExpr]: the number of targets, which is the
    length of the list, the target depths separated by a comma and a
    space, and the default target. *)
Theorem OnBrTableExpr_line (target_depths : list Index)
    (default_target_depth : Index) (w : World Reader) :
  written_text
    (fst (call_ (OnBrTableExpr target_depths default_target_depth) w))
  = ("OnBrTableExpr(num_targets: "
     ++ fmt_u (Z.of_nat (List.length target_depths))
     ++ ", depths: [" ++ String.concat ", " (map fmt_u target_depths)
     ++ "], default: " ++ fmt_u default_target_depth ++ ")" ++ nl)%string.
Proof.
  destruct w as [[d st] rd]. line_text.
  rewrite join_OnBrTableExpr_for_texts, !append_assoc. reflexivity.
Qed.

(** ** Buffers *)

Lemma Limits_text_length (limits : Limits) :
  (String.length (Limits_text limits) <= 56)%nat.
Proof.
  unfold Limits_text, fmt_u64.
  pose proof (radix_digits_length 10 20 (wrap 64 (initial limits)) "") as H1.
  pose proof (radix_digits_length 10 20 (wrap 64 (max limits)) "") as H2.
  change (String.length "") with O in H1, H2.
  destruct (has_max limits); rewrite !length_app;
    change (String.length "initial: ") with 9%nat;
    change (String.length ", max: ") with 7%nat; lia.
Qed.

(** The text of a limits descriptor has at most 56 characters, so the
    assertion of [SPrintLimits] holds for every buffer of 57 bytes or
    more, the 100 bytes of its callers among them; the bound is reached,
    and a buffer of 56 bytes fails the assertion for the largest limits. *)
Theorem SPrintLimits_fits (size : Z) (limits : Limits) (w : World Reader) :
  57 <= size ->
  SPrintLimits Reader size limits w = ([], Done (Limits_text limits) w)
  /\ (String.length (Limits_text limits) <= 56)%nat
  /\ SPrintLimits Reader 56
       {| initial := 2 ^ 64 - 1; max := 2 ^ 64 - 1; has_max := true |} w
     = ([], AssertFail).
Proof.
  intros Hsize. pose proof (Limits_text_length limits) as Hlen.
  split; [|split; [exact Hlen | vm_compute; reflexivity]].
  unfold SPrintLimits, bind, assert.
  destruct (Z.ltb_spec (Z.of_nat (String.length (Limits_text limits))) size);
    [reflexivity | lia].
Qed.

Lemma Stream_output_app (a b : list Effect) (out : string) :
  Stream_output (a ++ b) out
  = match Stream_output a out with
    | Some o => Stream_output b o
    | None => None
    end.
Proof.
  revert out. induction a as [|e a IH]; intros out; [reflexivity|].
  destruct e; cbn [app Stream_output]; rewrite ?IH; try reflexivity.
  now destruct (size <=? _).
Qed.

Lemma Stream_output_map_Writef (texts : list string) (out : string) :
  Stream_output (map Writef texts) out = Some (out ++ join texts)%string.
Proof.
  revert out. induction texts as [|t texts IH]; intros out.
  - cbn. now rewrite append_nil_r.
  - cbn [map Stream_output]. rewrite IH, join_cons, append_assoc. reflexivity.
Qed.

Lemma Stream_output_chunks (n : nat) (out : string) :
  exists o, Stream_output (repeat (WriteData s_indent s_indent_len) n) out = Some o.
Proof.
  revert out. induction n as [|n IH]; intros out; [now exists out|].
  cbn [repeat Stream_output].
  change (s_indent_len <=? Z.of_nat (String.length s_indent)) with true.
  cbv iota. apply IH.
Qed.

(** Up to the length of the padding buffer, [WriteIndent] puts exactly
    [indent_] spaces on the stream and nothing else: no text, no call on
    the wrapped delegate, the decorator unchanged. *)
Theorem WriteIndent_spaces (w : World Reader) (out : string) :
  0 <= indent_ (self w) <= 142 ->
  snd (WriteIndent Reader w) = Done tt w
  /\ Stream_output (fst (WriteIndent Reader w)) out
     = Some (out ++ repeat_char space (Z.to_nat (indent_ (self w))))%string
  /\ requested_bytes (fst (WriteIndent Reader w)) = indent_ (self w)
  /\ forwards (fst (WriteIndent Reader w)) = []
  /\ written_text (fst (WriteIndent Reader w)) = EmptyString.
Proof.
  intros H. rewrite WriteIndent_run. cbn [fst snd].
  destruct (WriteIndent_within_buffer (indent_ (self w)) out) as [He Hout].
  { now rewrite s_indent_len_eq. }
  split; [reflexivity|]. split; [exact Hout|]. split.
  - rewrite He. destruct (Z.ltb_spec 0 (indent_ (self w))); cbn; lia.
  - split; [apply forwards_WriteIndent_effects
           | apply written_text_WriteIndent_effects].
Qed.

(** Past the buffer, [WriteIndent] writes its chunks of 142 bytes and then
    asks for [indent_] bytes once more: the bytes requested exceed the
    depth by 142 for each chunk, and from depth 144 on the last write
    reads past the 143 bytes of the array. *)
Theorem WriteIndent_overrun (w : World Reader) (out : string) :
  142 < indent_ (self w) < 2 ^ 64 ->
  snd (WriteIndent Reader w) = Done tt w
  /\ requested_bytes (fst (WriteIndent Reader w))
     = indent_ (self w) + 142 * ((indent_ (self w) - 1) / 142)
  /\ indent_ (self w) + 142 <= requested_bytes (fst (WriteIndent Reader w))
  /\ (144 <= indent_ (self w) ->
      Stream_output (fst (WriteIndent Reader w)) out = None).
Proof.
  intros H. rewrite WriteIndent_run. cbn [fst snd].
  destruct (WriteIndent_beyond_buffer (indent_ (self w))) as [Hreq _].
  { now rewrite s_indent_len_eq. }
  rewrite s_indent_len_eq in Hreq.
  assert (Hk : 1 <= (indent_ (self w) - 1) / 142)
    by (apply Z.div_le_lower_bound; lia).
  split; [reflexivity|]. split; [exact Hreq|]. split; [lia|].
  intros H144. unfold WriteIndent_effects. cbv zeta.
  assert (Hw : to_size_t (indent_ (self w)) = indent_ (self w))
    by (unfold to_size_t; apply wrap_small; lia).
  rewrite Hw, Stream_output_app.
  destruct (Stream_output_chunks
              (Z.to_nat (WriteIndent_loops (indent_ (self w)))) out) as [o ->].
  unfold WriteIndent_loops. rewrite s_indent_len_eq.
  destruct (Z.leb_spec (indent_ (self w)) 142); [lia|].
  pose proof (Z.mod_pos_bound (indent_ (self w) - 1) 142 ltac:(lia)).
  pose proof (Z.div_mod (indent_ (self w) - 1) 142 ltac:(lia)).
  destruct (Z.ltb_spec 0 (indent_ (self w) - (indent_ (self w) - 1) / 142 * 142));
    [|lia].
  cbn [Stream_output].
  change (Z.of_nat (String.length s_indent)) with 143.
  destruct (Z.leb_spec (indent_ (self w)) 143); [lia | reflexivity].
Qed.

(** [Dedent] undoes [Indent] from every non-negative depth, and [Indent]
    undoes [Dedent] from every depth of one step at least; these are the
    depths at which [Dedent]'s assertion holds, and at the others the
    pair stops at the assertion. *)
Theorem Indent_Dedent_inverse (w : World Reader) :
  bind Reader (Indent Reader) (fun _ => Dedent Reader) w
  = ([], if 0 <=? indent_ (self w) then Done tt w else AssertFail)
  /\ bind Reader (Dedent Reader) (fun _ => Indent Reader) w
     = ([], if INDENT_SIZE <=? indent_ (self w) then Done tt w else AssertFail).
Proof.
  destruct w as [[d st] rd]. cbn [self indent_]. split.
  - erewrite bind_run by apply Indent_run.
    rewrite Dedent_run. unfold with_indent.
    cbn [fst snd self indent_ state reader app].
    replace (d + INDENT_SIZE - INDENT_SIZE) with d by lia.
    now destruct (0 <=? d).
  - destruct (Z.leb_spec INDENT_SIZE d) as [H|H].
    + erewrite bind_run by (apply Dedent_ok; exact H).
      rewrite Indent_run. unfold with_indent.
      cbn [fst snd self indent_ state reader app].
      replace (d - INDENT_SIZE + INDENT_SIZE) with d by lia. reflexivity.
    + erewrite bind_fail by (apply Dedent_underflow; exact H). reflexivity.
Qed.

(** ** Lines on the stream *)

(** With the depth within the padding buffer, a rendered call appends to
    the stream exactly its indentation in spaces followed by its text. *)
Theorem call_bytes (c : Call) (w : World Reader) (out : string) :
  leave_ok c (self w) ->
  silent c = false ->
  0 <= render_depth c (self w) <= 142 ->
  Stream_output (fst (call_ c w)) out
  = Some (out ++ repeat_char space (Z.to_nat (render_depth c (self w)))
          ++ written_text (fst (call_ c w)))%string.
Proof.
  intros Hok Hs Hd.
  rewrite <- Stream_output_stream_calls, <- written_text_stream_calls.
  destruct (call_line IsTypeIndex GetTypeName GetKindName GetRelocTypeName
              GetSymbolTypeName Opcode_GetName Opcode_GetCode fmt_g32 fmt_g64
              Reader reader_ c w Hok Hs) as (texts & body & -> & _ & _).
  destruct (WriteIndent_within_buffer (render_depth c (self w)) out) as [_ Hout].
  { now rewrite s_indent_len_eq. }
  rewrite Stream_output_app, Hout, Stream_output_map_Writef.
  rewrite written_text_app, written_text_WriteIndent_effects,
    written_text_map_Writef.
  cbn [append]. now rewrite append_assoc.
Qed.

(** The text of a line is a function of the call and its arguments only:
    it is the same at every depth, in every state of the decorator and
    whatever the wrapped delegate holds. *)
Theorem line_independent_of_state (c : Call) (w1 w2 : World Reader) :
  leave_ok c (self w1) ->
  leave_ok c (self w2) ->
  written_text (fst (call_ c w1)) = written_text (fst (call_ c w2)).
Proof.
  intros H1 H2. destruct w1 as [[d1 st1] rd1], w2 as [[d2 st2] rd2].
  destruct c;
    try match goal with n : IndexIndexName |- _ => destruct n end;
    try match goal with n : IndexIndexBoolName |- _ => destruct n end;
    cbn [leave_ok self indent_] in H1, H2; line_text; reflexivity.
Qed.

(** ** Integer fields *)

(** The hexadecimal field of an integer constant reads back as the
    constant, for [OnI32ConstExpr] and for [OnI64ConstExpr]. *)
Theorem integer_hex_field_lossless (value32 value64 : Z) (w : World Reader) :
  0 <= value32 < 2 ^ 32 ->
  0 <= value64 < 2 ^ 64 ->
  exists h32 h64,
    written_text (fst (call_ (OnI32ConstExpr value32) w))
    = ("OnI32ConstExpr(" ++ fmt_u value32 ++ " (" ++ h32 ++ "))" ++ nl)%string
    /\ written_text (fst (call_ (OnI64ConstExpr value64) w))
       = ("OnI64ConstExpr(" ++ fmt_u64 value64 ++ " (" ++ h64 ++ "))" ++ nl)%string
    /\ parse_hex h32 = Some value32
    /\ parse_hex h64 = Some value64.
Proof.
  intros H32 H64.
  exists ("0x" ++ fmt_x value32)%string, ("0x" ++ fmt_x64 value64)%string.
  assert (Hp : forall s, s <> EmptyString -> parse_hex ("0x" ++ s) = hex_value 0 s).
  { intros [|c r] Hs; [congruence | reflexivity]. }
  assert (Hne : forall s k, String.length s = k -> (1 <= k)%nat -> s <> EmptyString).
  { intros s k Hl Hk ->. cbn in Hl. lia. }
  destruct w as [[d st] rd].
  split; [line_text; reflexivity|]. split; [line_text; reflexivity|]. split.
  - destruct (fmt_x_spec IsTypeIndex GetTypeName GetKindName GetRelocTypeName
                GetSymbolTypeName Opcode_GetName Opcode_GetCode fmt_g32 fmt_g64
                value32) as (k & Hk & Hlen & Hhex).
    rewrite Hp by (eapply Hne; [exact Hlen | lia]).
    rewrite Hhex, wrap_small by exact H32. f_equal; lia.
  - destruct (fmt_x64_spec IsTypeIndex GetTypeName GetKindName GetRelocTypeName
                GetSymbolTypeName Opcode_GetName Opcode_GetCode fmt_g32 fmt_g64
                value64) as (k & Hk & Hlen & Hhex).
    rewrite Hp by (eapply Hne; [exact Hlen | lia]).
    rewrite Hhex, wrap_small by exact H64. f_equal; lia.
Qed.

(** The line of [OnSimdShuffleOpExpr] holds the four lanes of its vector
    as words of eight hexadecimal digits in the order of the lanes; only
    the first word follows [0x]. *)
Theorem shuffle_lane_order (opcode : Opcode) (value : v128) (w : World Reader) :
  v128_lanes_ok value ->
  exists w0 w1 w2 w3,
    written_text (fst (call_ (OnSimdShuffleOpExpr opcode value) w))
    = ("OnSimdShuffleOpExpr (lane: 0x" ++ w0 ++ " " ++ w1 ++ " " ++ w2
       ++ " " ++ w3 ++ ")" ++ nl)%string
    /\ (String.length w0 = 8 /\ String.length w1 = 8
        /\ String.length w2 = 8 /\ String.length w3 = 8)%nat
    /\ parse_hex ("0x" ++ w0) = Some (v_0 value)
    /\ parse_hex ("0x" ++ w1) = Some (v_1 value)
    /\ parse_hex ("0x" ++ w2) = Some (v_2 value)
    /\ parse_hex ("0x" ++ w3) = Some (v_3 value).
Proof.
  intros (H0 & H1 & H2 & H3).
  destruct (fmt_08x_spec IsTypeIndex GetTypeName GetKindName GetRelocTypeName
              GetSymbolTypeName Opcode_GetName Opcode_GetCode fmt_g32 fmt_g64
              _ H0) as [L0 P0].
  destruct (fmt_08x_spec IsTypeIndex GetTypeName GetKindName GetRelocTypeName
              GetSymbolTypeName Opcode_GetName Opcode_GetCode fmt_g32 fmt_g64
              _ H1) as [L1 P1].
  destruct (fmt_08x_spec IsTypeIndex GetTypeName GetKindName GetRelocTypeName
              GetSymbolTypeName Opcode_GetName Opcode_GetCode fmt_g32 fmt_g64
              _ H2) as [L2 P2].
  destruct (fmt_08x_spec IsTypeIndex GetTypeName GetKindName GetRelocTypeName
              GetSymbolTypeName Opcode_GetName Opcode_GetCode fmt_g32 fmt_g64
              _ H3) as [L3 P3].
  exists (fmt_08x (v_0 value)), (fmt_08x (v_1 value)),
    (fmt_08x (v_2 value)), (fmt_08x (v_3 value)).
  destruct w as [[d st] rd].
  split; [line_text; reflexivity|]. auto 10.
Qed.

End Further.

(** ** Sample runs *)

(** The scenario over a delegate that rejects every call. *)
Lemma run_through_witness :
  track (indent_ (self session_start)) scenario = Some 0
  /\ exists effs w',
       sample_run reject_all scenario session_start
       = (effs, Done (fst (direct unit reject_all scenario tt)) w')
       /\ forwards effs = scenario
       /\ reader w' = snd (direct unit reject_all scenario tt)
       /\ indent_ (self w') = 0.
Proof.
  split; [reflexivity|].
  exact (run_through sample_IsTypeIndex sample_GetTypeName
           (sample_name "func") (sample_name "R_WASM_FUNCTION_INDEX_LEB")
           (sample_name "func") (sample_name "i32.add") (fun opcode => opcode)
           (sample_name "1") (sample_name "1") unit reject_all
           scenario session_start 0 eq_refl).
Defined.

(** A module ended twice. *)
Lemma run_stops_witness :
  track (indent_ (self session_start))
    [BeginModule 1; DEFINE_END EndModule; DEFINE_END EndModule;
     DEFINE_BEGIN BeginTypeSection 12] = None
  /\ snd (sample_run accept_all
            [BeginModule 1; DEFINE_END EndModule; DEFINE_END EndModule;
             DEFINE_BEGIN BeginTypeSection 12] session_start)
     = AssertFail
  /\ forwards (fst (sample_run accept_all
                      [BeginModule 1; DEFINE_END EndModule; DEFINE_END EndModule;
                       DEFINE_BEGIN BeginTypeSection 12] session_start))
     = [BeginModule 1; DEFINE_END EndModule]
  /\ (2 < 4)%nat.
Proof.
  split; [reflexivity|].
  exact (run_stops sample_IsTypeIndex sample_GetTypeName
           (sample_name "func") (sample_name "R_WASM_FUNCTION_INDEX_LEB")
           (sample_name "func") (sample_name "i32.add") (fun opcode => opcode)
           (sample_name "1") (sample_name "1") unit accept_all
           [BeginModule 1; DEFINE_END EndModule; DEFINE_END EndModule;
            DEFINE_BEGIN BeginTypeSection 12] session_start eq_refl).
Defined.

(** The scenario cut before its end calls, from the start of a session. *)
Lemma depth_invariant_witness :
  0 <= indent_ (self session_start)
  /\ Z.even (indent_ (self session_start)) = true
  /\ match snd (sample_run accept_all (firstn 4 scenario) session_start) with
     | Done _ w' => 0 <= indent_ (self w') /\ Z.even (indent_ (self w')) = true
     | AssertFail => exists name, In (DEFINE_END name) (firstn 4 scenario)
     end.
Proof.
  assert (H : 0 <= indent_ (self session_start)) by (cbn; lia).
  split; [exact H|]. split; [reflexivity|].
  exact (depth_invariant sample_IsTypeIndex sample_GetTypeName
           (sample_name "func") (sample_name "R_WASM_FUNCTION_INDEX_LEB")
           (sample_name "func") (sample_name "i32.add") (fun opcode => opcode)
           (sample_name "1") (sample_name "1") unit accept_all
           (firstn 4 scenario) session_start H eq_refl).
Defined.

(** The buffer of 100 bytes of the callers. *)
Lemma SPrintLimits_fits_witness :
  57 <= 100
  /\ SPrintLimits unit 100 {| initial := 1; max := 4; has_max := true |}
       session_start
     = ([], Done "initial: 1, max: 4"%string session_start).
Proof.
  assert (H : 57 <= 100) by lia.
  split; [exact H|].
  exact (proj1 (SPrintLimits_fits unit 100
                  {| initial := 1; max := 4; has_max := true |}
                  session_start H)).
Defined.

(** Two steps deep. *)
Lemma WriteIndent_spaces_witness :
  0 <= indent_ (self (at_depth 4)) <= 142
  /\ Stream_output (fst (WriteIndent unit (at_depth 4))) "BeginModule"
     = Some "BeginModule    "%string.
Proof.
  assert (H : 0 <= indent_ (self (at_depth 4)) <= 142) by (cbn; lia).
  split; [exact H|].
  exact (proj1 (proj2 (WriteIndent_spaces unit (at_depth 4) "BeginModule" H))).
Defined.

(** Seventy-two steps deep. *)
Lemma WriteIndent_overrun_witness :
  142 < indent_ (self (at_depth 144)) < 2 ^ 64
  /\ requested_bytes (fst (WriteIndent unit (at_depth 144))) = 286
  /\ Stream_output (fst (WriteIndent unit (at_depth 144))) "" = None.
Proof.
  assert (H : 142 < indent_ (self (at_depth 144)) < 2 ^ 64)
    by (cbn [at_depth self indent_];
        change (2 ^ 64) with 18446744073709551616; lia).
  split; [exact H|].
  pose proof (WriteIndent_overrun unit (at_depth 144) "" H)
    as (_ & Hreq & _ & Hout).
  split; [exact Hreq|]. apply Hout. cbn. lia.
Defined.

(** An import two steps deep. *)
Lemma call_bytes_witness :
  leave_ok (OnImport 0 "env" "memory") (self (at_depth 4))
  /\ silent (OnImport 0 "env" "memory") = false
  /\ 0 <= render_depth (OnImport 0 "env" "memory") (self (at_depth 4)) <= 142
  /\ Stream_output
       (fst (sample_call accept_all (OnImport 0 "env" "memory") (at_depth 4))) ""
     = Some ("    OnImport(index: 0, module: " ++ String (ascii_of_nat 34) "env"
             ++ String (ascii_of_nat 34) ", field: "
             ++ String (ascii_of_nat 34) "memory"
             ++ String (ascii_of_nat 34) ")" ++ nl)%string.
Proof.
  assert (H : 0 <= render_depth (OnImport 0 "env" "memory") (self (at_depth 4))
              <= 142) by (cbn; lia).
  split; [exact I|]. split; [reflexivity|]. split; [exact H|].
  exact (call_bytes sample_IsTypeIndex sample_GetTypeName
           (sample_name "func") (sample_name "R_WASM_FUNCTION_INDEX_LEB")
           (sample_name "func") (sample_name "i32.add") (fun opcode => opcode)
           (sample_name "1") (sample_name "1") unit accept_all
           (OnImport 0 "env" "memory") (at_depth 4) "" I eq_refl H).
Defined.

(** The end of a module one step deep and three steps deep. *)
Lemma line_independent_of_state_witness :
  leave_ok (DEFINE_END EndModule) (self (at_depth 2))
  /\ leave_ok (DEFINE_END EndModule) (self (at_depth 6))
  /\ written_text (fst (sample_call accept_all (DEFINE_END EndModule) (at_depth 2)))
     = written_text (fst (sample_call accept_all (DEFINE_END EndModule) (at_depth 6))).
Proof.
  assert (H2 : leave_ok (DEFINE_END EndModule) (self (at_depth 2)))
    by (cbn; unfold INDENT_SIZE; lia).
  assert (H6 : leave_ok (DEFINE_END EndModule) (self (at_depth 6)))
    by (cbn; unfold INDENT_SIZE; lia).
  split; [exact H2|]. split; [exact H6|].
  exact (line_independent_of_state sample_IsTypeIndex sample_GetTypeName
           (sample_name "func") (sample_name "R_WASM_FUNCTION_INDEX_LEB")
           (sample_name "func") (sample_name "i32.add") (fun opcode => opcode)
           (sample_name "1") (sample_name "1") unit accept_all
           (DEFINE_END EndModule) (at_depth 2) (at_depth 6) H2 H6).
Defined.

(** The constants 255 and 2^40. *)
Lemma integer_hex_field_lossless_witness :
  0 <= 255 < 2 ^ 32
  /\ 0 <= 1099511627776 < 2 ^ 64
  /\ exists h32 h64,
       written_text (fst (sample_call accept_all (OnI32ConstExpr 255) session_start))
       = ("OnI32ConstExpr(" ++ fmt_u 255 ++ " (" ++ h32 ++ "))" ++ nl)%string
       /\ written_text
            (fst (sample_call accept_all (OnI64ConstExpr 1099511627776)
                    session_start))
          = ("OnI64ConstExpr(" ++ fmt_u64 1099511627776 ++ " (" ++ h64 ++ "))"
             ++ nl)%string
       /\ parse_hex h32 = Some 255
       /\ parse_hex h64 = Some 1099511627776.
Proof.
  assert (H32 : 0 <= 255 < 2 ^ 32) by (change (2 ^ 32) with 4294967296; lia).
  assert (H64 : 0 <= 1099511627776 < 2 ^ 64)
    by (change (2 ^ 64) with 18446744073709551616; lia).
  split; [exact H32|]. split; [exact H64|].
  exact (integer_hex_field_lossless sample_IsTypeIndex sample_GetTypeName
           (sample_name "func") (sample_name "R_WASM_FUNCTION_INDEX_LEB")
           (sample_name "func") (sample_name "i32.add") (fun opcode => opcode)
           (sample_name "1") (sample_name "1") unit accept_all
           255 1099511627776 session_start H32 H64).
Defined.

(** A shuffle with four distinct lanes. *)
Lemma shuffle_lane_order_witness :
  v128_lanes_ok distinct_lanes
  /\ exists w0 w1 w2 w3,
       written_text (fst (sample_call accept_all
                            (OnSimdShuffleOpExpr 0 distinct_lanes) session_start))
       = ("OnSimdShuffleOpExpr (lane: 0x" ++ w0 ++ " " ++ w1 ++ " " ++ w2
          ++ " " ++ w3 ++ ")" ++ nl)%string
       /\ (String.length w0 = 8 /\ String.length w1 = 8
           /\ String.length w2 = 8 /\ String.length w3 = 8)%nat
       /\ parse_hex ("0x" ++ w0) = Some 286331153
       /\ parse_hex ("0x" ++ w1) = Some 572662306
       /\ parse_hex ("0x" ++ w2) = Some 858993459
       /\ parse_hex ("0x" ++ w3) = Some 4294967295.
Proof.
  assert (H : v128_lanes_ok distinct_lanes)
    by (unfold v128_lanes_ok, distinct_lanes; cbn [v_0 v_1 v_2 v_3];
        change (2 ^ 32) with 4294967296; lia).
  split; [exact H|].
  exact (shuffle_lane_order sample_IsTypeIndex sample_GetTypeName
           (sample_name "func") (sample_name "R_WASM_FUNCTION_INDEX_LEB")
           (sample_name "func") (sample_name "i32.add") (fun opcode => opcode)
           (sample_name "1") (sample_name "1") unit accept_all
           0 distinct_lanes session_start H).
Defined.
